(** * Company data API: request validation, filter construction and
      response envelopes

    A shallow embedding of the company resource of the Express/Mongoose
    service (controllers/company.controller.ts, models/company.model.ts,
    utils/apiResponse.ts, middleware/errorHandler.ts) and the properties
    its specification states about it, followed by further properties of
    the same code.

    Conventions of the embedding.
    - A JavaScript value is a [JsVal]; a request body or query object is a
      finite map from keys to values, a missing key reading as [undefined].
    - Strings are byte strings; case folding and whitespace are the ASCII
      ones.  Numbers are the integers ([Z]); JSON has no NaN.
    - The document store is the list of stored documents in insertion order.
      Every handler takes the store and returns the store it leaves.
    - The clock and the stack trace are readings handed in by the caller.
    - A handler returns [None] only where the request leaves the fragment of
      JavaScript and of the driver that is modelled (regular-expression
      syntax beyond literals and the dot, casts across JSON types, numerals
      that are not decimal integers). *)

From Stdlib Require Import ZArith Ascii String List Bool Lia.
From stdpp Require Import base tactics option list strings gmap.

Local Open Scope Z_scope.
Set Warnings "-register-all".

(** ** JavaScript values and the built-ins the handlers call *)

Module Js.

Inductive JsVal : Type :=
| JUndefined
| JNull
| JBool (b : bool)
| JNum (n : Z)
| JStr (s : string)
| JDate (ms : Z)
| JArr (items : list JsVal)
| JObj (fields : list (string * JsVal)).

(** A parsed JSON body or a query object: own keys only. *)
Abbreviation JsObject := (gmap string JsVal).

(** [obj[key]]: a missing key reads as [undefined]. *)
Definition get (obj : JsObject) (key : string) : JsVal :=
  default JUndefined (obj !! key).

(** ToBoolean. *)
Definition truthy (v : JsVal) : bool :=
  match v with
  | JUndefined | JNull => false
  | JBool b => b
  | JNum n => negb (n =? 0)
  | JStr s => negb (String.eqb s "")
  | JDate _ | JArr _ | JObj _ => true
  end.

(** [v !== undefined]. *)
Definition defined (v : JsVal) : bool :=
  match v with JUndefined => false | _ => true end.

(** *** Strings *)

Definition chars (s : string) : list ascii := list_ascii_of_string s.
Definition str (l : list ascii) : string := string_of_list_ascii l.

(** WhiteSpace and LineTerminator code points below 128. *)
Definition isWhite (c : ascii) : bool :=
  match nat_of_ascii c with
  | 9%nat | 10%nat | 11%nat | 12%nat | 13%nat | 32%nat => true
  | _ => false
  end.

Fixpoint trimStart (l : list ascii) : list ascii :=
  match l with
  | c :: l' => if isWhite c then trimStart l' else l
  | [] => []
  end.

Definition trimEnd (l : list ascii) : list ascii :=
  rev (trimStart (rev l)).

(** [String.prototype.trim]. *)
Definition trim (s : string) : string :=
  str (trimEnd (trimStart (chars s))).

Definition lowerChar (c : ascii) : ascii :=
  let n := nat_of_ascii c in
  if ((65 <=? n) && (n <=? 90))%nat then ascii_of_nat (n + 32) else c.

(** [String.prototype.toLowerCase]. *)
Definition toLowerCase (s : string) : string :=
  str (map lowerChar (chars s)).

Fixpoint startsWithL (p l : list ascii) : bool :=
  match p, l with
  | [], _ => true
  | a :: p', b :: l' => Ascii.eqb a b && startsWithL p' l'
  | _ :: _, [] => false
  end.

Fixpoint includesL (p l : list ascii) : bool :=
  startsWithL p l ||
  match l with
  | [] => false
  | _ :: l' => includesL p l'
  end.

(** [s.startsWith(p)] and [s.includes(p)]. *)
Definition startsWith (s p : string) : bool := startsWithL (chars p) (chars s).
Definition includes (s p : string) : bool := includesL (chars p) (chars s).

(** [Array.prototype.join]. *)
Fixpoint join (sep : string) (l : list string) : string :=
  match l with
  | [] => ""
  | [x] => x
  | x :: l' => x +:+ sep +:+ join sep l'
  end.

(** *** Numbers *)

Definition digit (c : ascii) : option Z :=
  let n := nat_of_ascii c in
  if ((48 <=? n) && (n <=? 57))%nat then Some (Z.of_nat n - 48) else None.

Fixpoint digitsAcc (acc : Z) (l : list ascii) : option Z :=
  match l with
  | [] => Some acc
  | c :: l' =>
      match digit c with
      | Some d => digitsAcc (10 * acc + d) l'
      | None => None
      end
  end.

(** [Number(s)] on a string: the empty or blank string is 0 and a run of
    decimal digits, after trimming, is its value.  Every other numeral
    (signs, fractions, exponents, other radices, [Infinity]) and every
    string that converts to NaN is outside the fragment: [None]. *)
Definition ToNumber (s : string) : option Z :=
  digitsAcc 0 (chars (trim s)).

(** *** Dates *)

(** Days from 1970-01-01 to the civil date [y]-[m]-[d]. *)
Definition daysFromCivil (y m d : Z) : Z :=
  let y' := if m <=? 2 then y - 1 else y in
  let era := y' / 400 in
  let yoe := y' - era * 400 in
  let mp := if 2 <? m then m - 3 else m + 9 in
  let doy := (153 * mp + 2) / 5 + d - 1 in
  let doe := yoe * 365 + yoe / 4 - yoe / 100 + doy in
  era * 146097 + doe - 719468.

Definition isLeap (y : Z) : bool :=
  ((y mod 4 =? 0) && negb (y mod 100 =? 0)) || (y mod 400 =? 0).

Definition daysInMonth (y m : Z) : Z :=
  if m =? 2 then (if isLeap y then 29 else 28)
  else if (m =? 4) || (m =? 6) || (m =? 9) || (m =? 11) then 30
  else 31.

(** [new Date(s).getTime()] for a date-only string [YYYY-MM-DD], which
    is read as midnight UTC.  Every other date format, and every string
    that gives an invalid date, is outside the fragment: [None]. *)
Definition DateParse (s : string) : option Z :=
  match chars s with
  | [y1; y2; y3; y4; "-"%char; m1; m2; "-"%char; d1; d2] =>
      match digitsAcc 0 [y1; y2; y3; y4], digitsAcc 0 [m1; m2], digitsAcc 0 [d1; d2] with
      | Some y, Some m, Some d =>
          if (1 <=? m) && (m <=? 12) && (1 <=? d) && (d <=? daysInMonth y m)
          then Some (daysFromCivil y m d * 86400000)
          else None
      | _, _, _ => None
      end
  | _ => None
  end.

(** *** Sets of strings

    A [Set<string>] keeps its members in insertion order;
    [Array.from(set)] lists them in that order. *)

Definition StringSet := list string.

Definition Set_has (x : string) (s : StringSet) : bool :=
  existsb (String.eqb x) s.

Definition Set_add (x : string) (s : StringSet) : StringSet :=
  if Set_has x s then s else s ++ [x].

End Js.

(** ** Regular expressions

    [RegExp] objects as syntax trees, matched by derivatives.  The three
    patterns of the schema are written as trees; a pattern that arrives as
    a string in a request is read by [RegExp_i]. *)

Module Regex.

Import Js.

Inductive CharClass : Type :=
| CAny                       (* any character, line terminators too *)
| CDot                       (* [.] without the [s] flag *)
| CLit (c : ascii)           (* a literal character *)
| CLitI (c : ascii)          (* a literal character under the [i] flag *)
| CWord                      (* [\w] *)
| CDigit                     (* [\d] *)
| CRange (lo hi : ascii)     (* [[lo-hi]] *)
| COneOf (cs : list ascii).  (* [[...]] of single characters *)

Definition inRange (lo hi n : nat) : bool := ((lo <=? n) && (n <=? hi))%nat.

Definition isDigit (c : ascii) : bool := inRange 48 57 (nat_of_ascii c).

Definition isWord (c : ascii) : bool :=
  let n := nat_of_ascii c in
  inRange 65 90 n || inRange 97 122 n || inRange 48 57 n || (n =? 95)%nat.

Definition isLineTerminator (c : ascii) : bool :=
  Ascii.eqb c "010" || Ascii.eqb c "013".

Definition classMem (k : CharClass) (c : ascii) : bool :=
  match k with
  | CAny => true
  | CDot => negb (isLineTerminator c)
  | CLit a => Ascii.eqb a c
  | CLitI a => Ascii.eqb (lowerChar a) (lowerChar c)
  | CWord => isWord c
  | CDigit => isDigit c
  | CRange lo hi => inRange (nat_of_ascii lo) (nat_of_ascii hi) (nat_of_ascii c)
  | COneOf cs => existsb (Ascii.eqb c) cs
  end.

Inductive Regex : Type :=
| RNone
| REps
| RChar (k : CharClass)
| RCat (r1 r2 : Regex)
| RAlt (r1 r2 : Regex)
| RStar (r : Regex).

#[global] Instance CharClass_eq_dec : EqDecision CharClass.
Proof. solve_decision. Defined.

#[global] Instance Regex_eq_dec : EqDecision Regex.
Proof. solve_decision. Defined.

Fixpoint nullable (r : Regex) : bool :=
  match r with
  | RNone => false
  | REps => true
  | RChar _ => false
  | RCat r1 r2 => nullable r1 && nullable r2
  | RAlt r1 r2 => nullable r1 || nullable r2
  | RStar _ => true
  end.

(** Concatenation and alternation that drop the empty language, the empty
    word and a repeated alternative, so that derivatives stay small. *)
Definition mkCat (r1 r2 : Regex) : Regex :=
  match r1, r2 with
  | RNone, _ => RNone
  | _, RNone => RNone
  | REps, _ => r2
  | _, _ => RCat r1 r2
  end.

Definition mkAlt (r1 r2 : Regex) : Regex :=
  match r1, r2 with
  | RNone, _ => r2
  | _, RNone => r1
  | _, _ => if decide (r1 = r2) then r1 else RAlt r1 r2
  end.

Fixpoint deriv (c : ascii) (r : Regex) : Regex :=
  match r with
  | RNone => RNone
  | REps => RNone
  | RChar k => if classMem k c then REps else RNone
  | RCat r1 r2 =>
      if nullable r1
      then mkAlt (mkCat (deriv c r1) r2) (deriv c r2)
      else mkCat (deriv c r1) r2
  | RAlt r1 r2 => mkAlt (deriv c r1) (deriv c r2)
  | RStar r1 => mkCat (deriv c r1) (RStar r1)
  end.

(** The whole of [l] is a word of [r]. *)
Fixpoint matches (r : Regex) (l : list ascii) : bool :=
  match l with
  | [] => nullable r
  | c :: l' => matches (deriv c r) l'
  end.

Definition plus (r : Regex) : Regex := RCat r (RStar r).
Definition opt (r : Regex) : Regex := RAlt r REps.

(** [r{0,n}]. *)
Fixpoint upTo (n : nat) (r : Regex) : Regex :=
  match n with
  | O => REps
  | S n' => opt (RCat r (upTo n' r))
  end.

(** The characters of [s] in sequence, case-sensitively. *)
Fixpoint word (l : list ascii) : Regex :=
  match l with
  | [] => REps
  | c :: l' => RCat (RChar (CLit c)) (word l')
  end.

(** [regex.test(s)] for a pattern without anchors: some substring of [s]
    is a word of [r]. *)
Definition test (r : Regex) (s : string) : bool :=
  matches (RCat (RStar (RChar CAny)) (RCat r (RStar (RChar CAny)))) (chars s).

(** [regex.test(s)] for a pattern of the form [^r$]. *)
Definition testAnchored (r : Regex) (s : string) : bool :=
  matches r (chars s).

(** [regex.test(s)] for a pattern of the form [^r]. *)
Definition testPrefix (r : Regex) (s : string) : bool :=
  matches (RCat r (RStar (RChar CAny))) (chars s).

(** SyntaxCharacter of the pattern grammar. *)
Definition isSyntaxChar (c : ascii) : bool :=
  existsb (Ascii.eqb c) (chars "^$\.*+?()[]{}|").

(** One pattern character under the [i] flag; [None] for syntax beyond
    the dot. *)
Definition atom_i (c : ascii) : option Regex :=
  if Ascii.eqb c "." then Some (RChar CDot)
  else if isSyntaxChar c then None
  else Some (RChar (CLitI c)).

Fixpoint sequence_i (l : list ascii) : option Regex :=
  match l with
  | [] => Some REps
  | c :: l' =>
      match atom_i c, sequence_i l' with
      | Some a, Some r => Some (RCat a r)
      | _, _ => None
      end
  end.

(** [new RegExp(q, 'i')], and the server's [{ $regex: q, $options: 'i' }],
    for a pattern made of literal characters and dots. *)
Definition RegExp_i (q : string) : option Regex := sequence_i (chars q).

End Regex.

(** ** The environment a request runs in *)

(** What a handler reads from outside the request and the store: the
    clock ([new Date()], its [toISOString()] and its [getFullYear()]), the
    stack captured by a new [Error], the [NODE_ENV] variable, the year
    read when the schema module was loaded, the identifier the driver
    draws for a new document, and whether the driver applies a path's
    setters to the values of a query filter. *)
Record Env : Type := {
  now : Z;
  nowISO : string;
  fullYear : Z;
  schemaYear : Z;
  stackTrace : string;
  NODE_ENV : string;
  newObjectId : string;
  settersOnQuery : bool
}.

(** ** utils/apiResponse.ts *)

Module ApiResponse.

Import Js.

(** [class ApiResponse<T>]; an optional member that was not given holds
    [undefined]. *)
Record t : Type := {
  success : bool;
  statusCode : Z;
  message : string;
  data : JsVal;
  timestamp : string;
  path : option string
}.

(** [new ApiResponse(statusCode, message = 'Success', data?, path?)]. *)
Definition new (env : Env) (statusCode : Z) (message : option string)
    (data : JsVal) (path : option string) : t :=
  {| success := statusCode <? 400;
     statusCode := statusCode;
     message := default "Success" message;
     data := data;
     timestamp := nowISO env;
     path := path |}.

Definition optStr (o : option string) : JsVal :=
  match o with Some s => JStr s | None => JUndefined end.

(** What [JSON.stringify] keeps of an object literal: the members whose
    value is not [undefined]. *)
Definition jsonObject (fields : list (string * JsVal)) : JsVal :=
  JObj (filter (fun kv => defined kv.2 = true) fields).

Definition toJSON (r : t) : JsVal :=
  jsonObject
    [("success", JBool (success r));
     ("statusCode", JNum (statusCode r));
     ("message", JStr (message r));
     ("data", data r);
     ("timestamp", JStr (timestamp r));
     ("path", optStr (path r))].

Definition success_ (env : Env) (data : JsVal) (message : option string)
    (statusCode : option Z) : t :=
  new env (default 200 statusCode)
    (Some (default "Operation successful" message)) data None.

Definition created (env : Env) (data : JsVal) (message : option string) : t :=
  new env 201 (Some (default "Resource created successfully" message)) data None.

Definition noContent (env : Env) (message : option string) : t :=
  new env 204 (Some (default "No content" message)) JNull None.

End ApiResponse.

Module ApiError.

Import Js.

(** [class ApiError extends Error]; [success] is the constant [false]. *)
Record t : Type := {
  statusCode : Z;
  message : string;
  errors : option (list string);
  timestamp : string;
  path : option string;
  isOperational : bool;
  stack : string
}.

Definition success (e : t) : bool := false.

(** [new ApiError(statusCode, message = 'Something went wrong', errors?)]
    with [path], [isOperational = true] and [stack] left to their
    defaults, as every caller does. *)
Definition new (env : Env) (statusCode : Z) (message : option string)
    (errors : option (list string)) : t :=
  {| statusCode := statusCode;
     message := default "Something went wrong" message;
     errors := errors;
     timestamp := nowISO env;
     path := None;
     isOperational := true;
     stack := stackTrace env |}.

Definition badRequest (env : Env) (message : option string)
    (errors : option (list string)) : t :=
  new env 400 (Some (default "Bad request" message)) errors.

Definition unauthorized (env : Env) (message : option string) : t :=
  new env 401 (Some (default "Unauthorized access" message)) None.

Definition forbidden (env : Env) (message : option string) : t :=
  new env 403 (Some (default "Forbidden access" message)) None.

Definition notFound (env : Env) (message : option string) : t :=
  new env 404 (Some (default "Resource not found" message)) None.

Definition conflict (env : Env) (message : option string) : t :=
  new env 409 (Some (default "Resource conflict" message)) None.

Definition unprocessableEntity (env : Env) (message : option string)
    (errors : option (list string)) : t :=
  new env 422 (Some (default "Unprocessable entity" message)) errors.

Definition tooManyRequests (env : Env) (message : option string) : t :=
  new env 429 (Some (default "Too many requests" message)) None.


Definition serviceUnavailable (env : Env) (message : option string) : t :=
  new env 503 (Some (default "Service unavailable" message)) None.

Definition gatewayTimeout (env : Env) (message : option string) : t :=
  new env 504 (Some (default "Gateway timeout" message)) None.

Definition strings (l : list string) : JsVal := JArr (map JStr l).

Definition optStrings (o : option (list string)) : JsVal :=
  match o with Some l => strings l | None => JUndefined end.

Definition toJSON (e : t) : JsVal :=
  ApiResponse.jsonObject
    [("success", JBool (success e));
     ("statusCode", JNum (statusCode e));
     ("message", JStr (message e));
     ("errors", optStrings (errors e));
     ("timestamp", JStr (timestamp e));
     ("path", ApiResponse.optStr (path e))].

End ApiError.

(** ** models/company.model.ts *)

Module Company.

Import Js Regex.

Definition industryEnum : list string :=
  ["Technology"; "Healthcare"; "Manufacturing"; "Financial Services";
   "Retail"; "Education"; "Construction"; "Transportation";
   "Entertainment"; "Other"].

(** A stored document ([ICompanyDocument]).  An optional path that is
    missing or null is [None]. *)
Record t : Type := {
  _id : string;
  name : string;
  description : option string;
  industry : string;
  foundedYear : option Z;
  location : list string;
  website : option string;
  email : string;
  phone : option string;
  employees : option Z;
  isActive : bool;
  logo : option string;
  headquarters : option string;
  revenue : option Z;
  createdAt : Z;
  updatedAt : Z
}.

(** [!n] for an optional number. *)
Definition noNumber (o : option Z) : bool :=
  match o with
  | None => true
  | Some n => n =? 0
  end.

(** [!s] for an optional string. *)
Definition noString (o : option string) : bool :=
  match o with
  | None => true
  | Some s => String.eqb s ""
  end.

(** *** Virtual properties *)

Definition companyAge (env : Env) (c : t) : JsVal :=
  if noNumber (foundedYear c) then JNull
  else JNum (fullYear env - default 0 (foundedYear c)).

Definition employeeRangeOf (o : option Z) : string :=
  if noNumber o then "Not specified"
  else
    let n := default 0 o in
    if n <? 10 then "1-10"
    else if n <? 50 then "11-50"
    else if n <? 200 then "51-200"
    else if n <? 1000 then "201-1000"
    else "1000+".

Definition employeeRange (c : t) : string := employeeRangeOf (employees c).

(** *** Instance methods *)

Definition getEmployeeRange (c : t) : string := employeeRangeOf (employees c).

Definition getCompanyAge (env : Env) (c : t) : Z :=
  if noNumber (foundedYear c) then 0
  else fullYear env - default 0 (foundedYear c).

Definition optNum (o : option Z) : JsVal :=
  match o with Some n => JNum n | None => JUndefined end.

(** The stored paths of a document, in schema order. *)
Definition paths (c : t) : list (string * JsVal) :=
  [("_id", JStr (_id c));
   ("name", JStr (name c));
   ("description", ApiResponse.optStr (description c));
   ("industry", JStr (industry c));
   ("foundedYear", optNum (foundedYear c));
   ("location", ApiError.strings (location c));
   ("website", ApiResponse.optStr (website c));
   ("email", JStr (email c));
   ("phone", ApiResponse.optStr (phone c));
   ("employees", optNum (employees c));
   ("isActive", JBool (isActive c));
   ("logo", ApiResponse.optStr (logo c));
   ("headquarters", ApiResponse.optStr (headquarters c));
   ("revenue", optNum (revenue c));
   ("createdAt", JDate (createdAt c));
   ("updatedAt", JDate (updatedAt c));
   ("__v", JNum 0)].

Definition present (fields : list (string * JsVal)) : list (string * JsVal) :=
  filter (fun kv => defined kv.2 = true) fields.

(** [doc.toObject()] under the schema option [toObject: { virtuals: true }]:
    the stored paths that are set, then the virtuals. *)
Definition toObject (env : Env) (c : t) : list (string * JsVal) :=
  present (paths c) ++
  [("companyAge", companyAge env c);
   ("employeeRange", JStr (employeeRange c));
   ("id", JStr (_id c))].

(** [.lean()]: the stored paths only. *)
Definition lean (c : t) : list (string * JsVal) := present (paths c).

Definition deleteKey (key : string) (fields : list (string * JsVal))
    : list (string * JsVal) :=
  filter (fun kv => kv.1 <> key) fields.

Definition getPublicProfile (env : Env) (c : t) : list (string * JsVal) :=
  deleteKey "revenue" (deleteKey "email" (toObject env c)).

(** *** The schema: casting and setters

    The object handed to [Company.create], path by path.  A value of the
    JSON type of its path, null or a missing value is cast; a value of
    another JSON type is outside the fragment ([None]). *)

Record Draft : Type := {
  d_name : option string;
  d_description : option string;
  d_industry : option string;
  d_foundedYear : option Z;
  d_location : list string;
  d_website : option string;
  d_email : option string;
  d_phone : option string;
  d_employees : option Z;
  d_isActive : bool;
  d_logo : option string;
  d_headquarters : option string;
  d_revenue : option Z
}.

Definition castString (v : JsVal) : option (option string) :=
  match v with
  | JUndefined | JNull => Some None
  | JStr s => Some (Some s)
  | _ => None
  end.

Definition castNumber (v : JsVal) : option (option Z) :=
  match v with
  | JUndefined | JNull => Some None
  | JNum n => Some (Some n)
  | _ => None
  end.

Fixpoint castStrings (l : list JsVal) : option (list string) :=
  match l with
  | [] => Some []
  | JStr s :: l' => option_map (cons s) (castStrings l')
  | _ :: _ => None
  end.

(** [type: [String]]: a missing array defaults to the empty one. *)
Definition castStringArray (v : JsVal) : option (list string) :=
  match v with
  | JUndefined => Some []
  | JArr l => castStrings l
  | _ => None
  end.

(** The setters [trim: true] and [lowercase: true]. *)
Definition trimmed (v : JsVal) : option (option string) :=
  option_map (option_map trim) (castString v).

Definition lowerTrimmed (v : JsVal) : option (option string) :=
  option_map (option_map (fun s => trim (toLowerCase s))) (castString v).

Definition cast (obj : JsObject) : option Draft :=
  n ← trimmed (get obj "name");
  de ← trimmed (get obj "description");
  i ← castString (get obj "industry");
  fy ← castNumber (get obj "foundedYear");
  lo ← castStringArray (get obj "location");
  w ← trimmed (get obj "website");
  e ← lowerTrimmed (get obj "email");
  p ← trimmed (get obj "phone");
  em ← castNumber (get obj "employees");
  lg ← trimmed (get obj "logo");
  h ← trimmed (get obj "headquarters");
  r ← castNumber (get obj "revenue");
  Some {| d_name := n; d_description := de; d_industry := i;
          d_foundedYear := fy; d_location := lo; d_website := w;
          d_email := e; d_phone := p; d_employees := em;
          d_isActive := true; d_logo := lg; d_headquarters := h;
          d_revenue := r |}.

(** *** The schema: validators *)

(** [/^\w+([.-]?\w+)*@\w+([.-]?\w+)*(\.\w{2,3})+$/] *)
Definition emailRegex : Regex :=
  let w := RChar CWord in
  let part := RCat (plus w) (RStar (RCat (opt (RChar (COneOf (chars ".-")))) (plus w))) in
  RCat part (RCat (RChar (CLit "@")) (RCat part
    (plus (RCat (RChar (CLit ".")) (RCat w (RCat w (opt w))))))).

(** [/^https?:\/\/.+\..+/] *)
Definition urlRegex : Regex :=
  RCat (word (chars "http")) (RCat (opt (RChar (CLit "s")))
    (RCat (word (chars "://")) (RCat (plus (RChar CDot))
      (RCat (RChar (CLit ".")) (plus (RChar CDot)))))).

(** [/^[\+]?[1-9][\d]{0,15}$/] *)
Definition phoneRegex : Regex :=
  RCat (opt (RChar (CLit "+")))
    (RCat (RChar (CRange "1" "9")) (upTo 15 (RChar CDigit))).

(** [value.replace(/[\s\-\(\)]/g, '')] *)
Definition stripSeparators (s : string) : string :=
  str (filter (fun c => (isWhite c || existsb (Ascii.eqb c) (chars "-()")) = false)
         (chars s)).

Definition len (s : string) : Z := Z.of_nat (String.length s).

(** The message of the first validator of a path that fails. *)
Fixpoint firstFailure (checks : list (bool * string)) : option string :=
  match checks with
  | [] => None
  | (ok, msg) :: rest => if ok then firstFailure rest else Some msg
  end.

Definition pathError (path : string) (checks : list (bool * string))
    : list (string * string) :=
  match firstFailure checks with
  | Some msg => [(path, msg)]
  | None => []
  end.

(** A validator other than [required] is skipped on a missing value. *)
Definition onString (o : option string) (f : string -> bool) : bool :=
  match o with Some s => f s | None => true end.

Definition onNumber (o : option Z) (f : Z -> bool) : bool :=
  match o with Some n => f n | None => true end.

(** The validators of every path, in schema order; one error per path. *)
Definition validate (env : Env) (d : Draft) : list (string * string) :=
  pathError "name"
    [(negb (noString (d_name d)), "Company name is required");
     (onString (d_name d) (fun s => len s <=? 100),
      "Company name cannot exceed 100 characters")] ++
  pathError "description"
    [(onString (d_description d) (fun s => len s <=? 1000),
      "Description cannot exceed 1000 characters")] ++
  pathError "industry"
    [(negb (noString (d_industry d)), "Industry is required");
     (onString (d_industry d) (fun s => bool_decide (s ∈ industryEnum)),
      "Please select a valid industry")] ++
  pathError "foundedYear"
    [(onNumber (d_foundedYear d) (fun y => 1800 <=? y),
      "Founded year must be after 1800");
     (onNumber (d_foundedYear d) (fun y => y <=? schemaYear env),
      "Founded year cannot be in the future");
     (onNumber (d_foundedYear d)
        (fun y => (y =? 0) || ((1800 <=? y) && (y <=? fullYear env))),
      "Please provide a valid founded year")] ++
  pathError "location"
    [(negb (Nat.eqb (length (d_location d)) 0) &&
      forallb (fun loc => len loc <=? 200) (d_location d),
      "Each location must not exceed 200 characters")] ++
  pathError "website"
    [(onString (d_website d)
        (fun s => String.eqb s "" || testPrefix urlRegex s),
      "Please provide a valid website URL")] ++
  pathError "email"
    [(negb (noString (d_email d)), "Email is required");
     (onString (d_email d) (fun s => testAnchored emailRegex s),
      "Please enter a valid email")] ++
  pathError "phone"
    [(onString (d_phone d)
        (fun s => String.eqb s "" || testAnchored phoneRegex (stripSeparators s)),
      "Please provide a valid phone number")] ++
  pathError "employees"
    [(onNumber (d_employees d) (fun n => 1 <=? n),
      "Employee count must be at least 1");
     (onNumber (d_employees d) (fun n => n <=? 10000000),
      "Employee count seems unrealistic")] ++
  pathError "headquarters"
    [(onString (d_headquarters d) (fun s => len s <=? 200),
      "Headquarters cannot exceed 200 characters")] ++
  pathError "revenue"
    [(onNumber (d_revenue d) (fun n => 0 <=? n),
      "Revenue cannot be negative")].

(** *** Pre-save middleware *)

Definition preSaveWebsite (w : option string) : option string :=
  match w with
  | Some s =>
      if negb (String.eqb s "") && negb (startsWith s "http")
      then Some ("https://" +:+ s)
      else Some s
  | None => None
  end.

(** The document a validated draft is saved as, under the identifier and
    the timestamps it is given. *)
Definition document (env : Env) (d : Draft) : t :=
  {| _id := newObjectId env;
     name := default "" (d_name d);
     description := d_description d;
     industry := default "" (d_industry d);
     foundedYear := d_foundedYear d;
     location := d_location d;
     website := preSaveWebsite (d_website d);
     email := default "" (d_email d);
     phone := d_phone d;
     employees := d_employees d;
     isActive := d_isActive d;
     logo := d_logo d;
     headquarters := d_headquarters d;
     revenue := d_revenue d;
     createdAt := now env;
     updatedAt := now env |}.

End Company.

(** ** What a handler can end with *)

Record HttpResponse : Type := {
  status : Z;
  body : Js.JsVal
}.

(** The errors the handlers and the driver throw. *)
Inductive Thrown : Type :=
| ThrowApiError (e : ApiError.t)
| ThrowTypeError (message : string)
| ThrowValidationError (errors : list (string * string))
| ThrowDuplicateKey (key value : string)
| ThrowCastError (path value : string).

Module Thrown.

Definition name (e : Thrown) : string :=
  match e with
  | ThrowApiError _ => "Error"
  | ThrowTypeError _ => "TypeError"
  | ThrowValidationError _ => "ValidationError"
  | ThrowDuplicateKey _ _ => "MongoServerError"
  | ThrowCastError _ _ => "CastError"
  end.

Definition code (e : Thrown) : option Z :=
  match e with
  | ThrowDuplicateKey _ _ => Some 11000
  | _ => None
  end.

(** [err.message]; the texts of the driver's errors follow its format. *)
Definition message (e : Thrown) : string :=
  match e with
  | ThrowApiError a => ApiError.message a
  | ThrowTypeError m => m
  | ThrowValidationError errs =>
      "Company validation failed: " +:+
      Js.join ", " (map (fun pm => pm.1 +:+ ": " +:+ pm.2) errs)
  | ThrowDuplicateKey key value =>
      "E11000 duplicate key error collection: companies index: " +:+ key +:+
      "_1 dup key: { " +:+ key +:+ ": " +:+ value +:+ " }"
  | ThrowCastError path value =>
      "Cast to ObjectId failed for value " +:+ value +:+ " (type string) at path " +:+
      path +:+ " for model Company"
  end.

Definition statusCode (e : Thrown) : option Z :=
  match e with
  | ThrowApiError a => Some (ApiError.statusCode a)
  | _ => None
  end.

Definition isOperational (e : Thrown) : bool :=
  match e with
  | ThrowApiError a => ApiError.isOperational a
  | _ => false
  end.

End Thrown.

(** ** The document store, as the handlers use it through the model *)

Module Store.

Import Js Regex.

(** The collection, in insertion order. *)
Abbreviation t := (list Company.t).

Definition isHex (c : ascii) : bool :=
  let n := nat_of_ascii c in
  inRange 48 57 n || inRange 97 102 n || inRange 65 70 n.

(** A string that casts to an ObjectId: 24 hexadecimal digits. *)
Definition validObjectId (id : string) : bool :=
  Nat.eqb (String.length id) 24 && forallb isHex (chars id).

Definition byId (id : string) (c : Company.t) : bool :=
  String.eqb (Company._id c) id.

(** [Company.findById(id)]. *)
Definition findById (id : string) (st : t) : Thrown + option Company.t :=
  if validObjectId id then inr (find (byId id) st)
  else inl (ThrowCastError "_id" id).

(** The value of a filter on [name] or [email] as the query compares it:
    with the setters of the path when the query layer applies them. *)
Definition queryName (env : Env) (s : string) : string :=
  if settersOnQuery env then trim s else s.

Definition queryEmail (env : Env) (s : string) : string :=
  if settersOnQuery env then trim (toLowerCase s) else s.

(** [Company.findOne({ $or: [{ name: name }, { email: email }] })]. *)
Definition findOneByNameOrEmail (env : Env) (name email : string) (st : t)
    : option Company.t :=
  find (fun c => String.eqb (Company.name c) (queryName env name) ||
                 String.eqb (Company.email c) (queryEmail env email)) st.

(** The unique indexes on [_id], [name] and [email]: the key a new
    document collides on, if any. *)
Definition duplicateKey (doc : Company.t) (st : t) : option (string * string) :=
  if existsb (byId (Company._id doc)) st
  then Some ("_id", Company._id doc)
  else if existsb (fun c => String.eqb (Company.name c) (Company.name doc)) st
  then Some ("name", Company.name doc)
  else if existsb (fun c => String.eqb (Company.email c) (Company.email doc)) st
  then Some ("email", Company.email doc)
  else None.

(** [Company.create(obj)]: cast, validate, run the pre-save middleware,
    insert; the collection it leaves and the document or the error. *)
Definition create (env : Env) (obj : JsObject) (st : t)
    : option (t * (Thrown + Company.t)) :=
  d ← Company.cast obj;
  match Company.validate env d with
  | (_ :: _) as errs => Some (st, inl (ThrowValidationError errs))
  | [] =>
      let doc := Company.document env d in
      match duplicateKey doc st with
      | Some (key, value) => Some (st, inl (ThrowDuplicateKey key value))
      | None => Some (st ++ [doc], inr doc)
      end
  end.

(** One path of an update: left alone when the update does not set it. *)
Definition pathUpdate {A : Type} (castTo : JsVal -> option A)
    (v : option JsVal) (old : A) : option A :=
  match v with
  | None | Some JUndefined => Some old
  | Some x => castTo x
  end.

(** The Boolean cast: the values that convert to [true] and to [false]. *)
Definition castBoolean (v : JsVal) : option bool :=
  match v with
  | JBool b => Some b
  | JNum 1 => Some true
  | JNum 0 => Some false
  | JStr s =>
      if bool_decide (s ∈ ["true"; "1"; "yes"]) then Some true
      else if bool_decide (s ∈ ["false"; "0"; "no"]) then Some false
      else None
  | _ => None
  end.

Definition castLocations (v : JsVal) : option (list string) :=
  match v with
  | JArr l => Company.castStrings l
  | _ => None
  end.

(** [$set] of the update on a document: the paths of the schema the update
    names are cast as on creation and replaced, [updatedAt] is refreshed,
    validators do not run.  Only the five paths the controller lets
    through are read. *)
Definition applyUpdate (env : Env) (u : JsObject) (c : Company.t)
    : option Company.t :=
  lg ← pathUpdate Company.trimmed (u !! "logo") (Company.logo c);
  de ← pathUpdate Company.trimmed (u !! "description") (Company.description c);
  lo ← pathUpdate castLocations (u !! "location") (Company.location c);
  ph ← pathUpdate Company.trimmed (u !! "phone") (Company.phone c);
  ac ← pathUpdate castBoolean (u !! "isActive") (Company.isActive c);
  Some {| Company._id := Company._id c;
          Company.name := Company.name c;
          Company.description := de;
          Company.industry := Company.industry c;
          Company.foundedYear := Company.foundedYear c;
          Company.location := lo;
          Company.website := Company.website c;
          Company.email := Company.email c;
          Company.phone := ph;
          Company.employees := Company.employees c;
          Company.isActive := ac;
          Company.logo := lg;
          Company.headquarters := Company.headquarters c;
          Company.revenue := Company.revenue c;
          Company.createdAt := Company.createdAt c;
          Company.updatedAt := now env |}.

(** Replace, or remove, the first document with the given identifier. *)
Fixpoint replaceById (id : string) (c' : Company.t) (st : t) : t :=
  match st with
  | [] => []
  | c :: rest => if byId id c then c' :: rest else c :: replaceById id c' rest
  end.

Fixpoint removeById (id : string) (st : t) : t :=
  match st with
  | [] => []
  | c :: rest => if byId id c then rest else c :: removeById id rest
  end.

(** [Company.findByIdAndUpdate(id, updateData, { new: true })]. *)
Definition findByIdAndUpdate (env : Env) (id : string) (u : JsObject) (st : t)
    : option (t * (Thrown + option Company.t)) :=
  if validObjectId id then
    match find (byId id) st with
    | None => Some (st, inr None)
    | Some c =>
        c' ← applyUpdate env u c;
        Some (replaceById id c' st, inr (Some c'))
    end
  else Some (st, inl (ThrowCastError "_id" id)).

(** [Company.findByIdAndDelete(id)]. *)
Definition findByIdAndDelete (id : string) (st : t)
    : t * (Thrown + option Company.t) :=
  if validObjectId id then
    match find (byId id) st with
    | None => (st, inr None)
    | Some c => (removeById id st, inr (Some c))
    end
  else (st, inl (ThrowCastError "_id" id)).

(** *** Query filters *)

(** The filter object [searchCompanies] builds: a member is [None] when
    the handler did not set it.  [name] and [location] hold the source of
    a [$regex] with [$options: 'i'], [employees] and [createdAt] the bound
    of a [$gte]. *)
Record Filters : Type := {
  f_name : option string;
  f_location : option string;
  f_industry : option string;
  f_isActive : option bool;
  f_employees : option Z;
  f_createdAt : option Z;
  f_foundedYear : option Z
}.


(** A member of the filter that is not set constrains nothing. *)
Definition holds {A : Type} (o : option A) (p : A -> bool) : bool :=
  match o with
  | None => true
  | Some a => p a
  end.

(** [{ $gte: n }] and equality on an optional numeric path: a document
    without the path does not match. *)
Definition gte (field : option Z) (n : Z) : bool :=
  match field with Some x => n <=? x | None => false end.

Definition equalsNum (field : option Z) (n : Z) : bool :=
  match field with Some x => x =? n | None => false end.

(** A document matches a filter when it matches every member that is set. *)
Definition matchesFilters (rName rLocation : option Regex) (f : Filters)
    (c : Company.t) : bool :=
  holds rName (fun r => test r (Company.name c)) &&
  holds rLocation (fun r => existsb (test r) (Company.location c)) &&
  holds (f_industry f) (String.eqb (Company.industry c)) &&
  holds (f_isActive f) (Bool.eqb (Company.isActive c)) &&
  holds (f_employees f) (gte (Company.employees c)) &&
  holds (f_createdAt f) (fun d => d <=? Company.createdAt c) &&
  holds (f_foundedYear f) (equalsNum (Company.foundedYear c)).

(** The pattern of an optional [$regex] member. *)
Definition compile (o : option string) : option (option Regex) :=
  match o with
  | None => Some None
  | Some q => option_map Some (RegExp_i q)
  end.

(** [Company.find(filters)]. *)
Definition findMany (f : Filters) (st : t) : option t :=
  rn ← compile (f_name f);
  rl ← compile (f_location f);
  Some (List.filter (matchesFilters rn rl f) st).

(** [Company.find({ $or: [{ name: re }, { industry: re }, { location: re }] })]
    with [re = { $regex: q, $options: 'i' }]. *)
Definition findSuggestions (q : string) (st : t) : option t :=
  r ← RegExp_i q;
  Some (List.filter (fun c => test r (Company.name c) ||
                              test r (Company.industry c) ||
                              existsb (test r) (Company.location c)) st).

(** *** The aggregation of [getAllCompanies] *)

Definition projected : list string :=
  ["_id"; "name"; "description"; "industry"; "foundedYear"; "location";
   "website"; "isActive"; "logo"; "employeeRange"].

(** [$project]: the listed paths the stored document has.  A virtual is
    not stored, so [employeeRange] never appears. *)
Definition project (c : Company.t) : JsVal :=
  JObj (List.filter (fun kv => existsb (String.eqb kv.1) projected) (Company.lean c)).

(** [Company.aggregate([{ $project }, { $skip }, { $limit }])].  The server
    rejects a negative skip and a limit that is not positive; such a
    pipeline is outside the fragment. *)
Definition aggregatePage (skip limit : Z) (st : t) : option (list JsVal) :=
  if (0 <=? skip) && (0 <? limit)
  then Some (take (Z.to_nat limit) (drop (Z.to_nat skip) (map project st)))
  else None.

End Store.

(** ** middleware/errorHandler.ts *)

Module ErrorHandler.

Import Js.

(** The [error] the global handler ends up sending: the spread copy of
    what was thrown, which keeps its own enumerable members only, or the
    [ApiError] instance one of the [handle...] functions returned. *)
Inductive Handled : Type :=
| Copy (err : Thrown)
| Instance (e : ApiError.t).

Definition statusCode (h : Handled) : option Z :=
  match h with
  | Copy err => Thrown.statusCode err
  | Instance e => Some (ApiError.statusCode e)
  end.

Definition isOperational (h : Handled) : bool :=
  match h with
  | Copy err => Thrown.isOperational err
  | Instance e => ApiError.isOperational e
  end.

Definition message (h : Handled) : string :=
  match h with
  | Copy err => Thrown.message err
  | Instance e => ApiError.message e
  end.

(** [err.stack]: a stack is not enumerable, so a copy has none. *)
Definition stack (h : Handled) : JsVal :=
  match h with
  | Copy _ => JUndefined
  | Instance e => JStr (ApiError.stack e)
  end.

(** The object as [JSON.stringify] writes it. *)
Definition json (h : Handled) : JsVal :=
  match h with
  | Copy (ThrowApiError e) =>
      ApiResponse.jsonObject
        [("success", JBool false);
         ("statusCode", JNum (ApiError.statusCode e));
         ("message", JStr (ApiError.message e));
         ("errors", ApiError.optStrings (ApiError.errors e));
         ("timestamp", JStr (ApiError.timestamp e));
         ("path", ApiResponse.optStr (ApiError.path e));
         ("isOperational", JBool (ApiError.isOperational e))]
  | Copy err => JObj [("message", JStr (Thrown.message err))]
  | Instance e => ApiError.toJSON e
  end.

(** [err.statusCode || 500]. *)
Definition statusOr500 (h : Handled) : Z :=
  match statusCode h with
  | Some n => if n =? 0 then 500 else n
  | None => 500
  end.

Definition sendErrorDev (env : Env) (err : Handled) (reqPath reqMethod : string)
    : HttpResponse :=
  let statusCode := statusOr500 err in
  {| status := statusCode;
     body := ApiResponse.jsonObject
       [("success", JBool false);
        ("statusCode", JNum statusCode);
        ("message", JStr (message err));
        ("error", json err);
        ("stack", stack err);
        ("path", JStr reqPath);
        ("method", JStr reqMethod);
        ("timestamp", JStr (nowISO env))] |}.

Definition sendErrorProd (env : Env) (err : Handled) (reqPath : string)
    : HttpResponse :=
  let statusCode := statusOr500 err in
  if isOperational err then
    {| status := statusCode;
       body := JObj
         [("success", JBool false);
          ("statusCode", JNum statusCode);
          ("message", JStr (message err));
          ("timestamp", JStr (nowISO env));
          ("path", JStr reqPath)] |}
  else
    {| status := 500;
       body := JObj
         [("success", JBool false);
          ("statusCode", JNum 500);
          ("message", JStr "Something went wrong on our end. Please try again later.");
          ("timestamp", JStr (nowISO env));
          ("path", JStr reqPath)] |}.

Definition handleCastErrorDB (env : Env) (path value : string) : ApiError.t :=
  ApiError.badRequest env (Some ("Invalid " +:+ path +:+ ": " +:+ value)) None.

Definition handleDuplicateFieldsDB (env : Env) (field value : string) : ApiError.t :=
  ApiError.conflict env
    (Some ("Duplicate field value: " +:+ field +:+ " = '" +:+ value +:+
           "'. Please use another value.")).

Definition handleValidationErrorDB (env : Env) (errors : list (string * string))
    : ApiError.t :=
  ApiError.unprocessableEntity env (Some "Invalid input data") (Some (map snd errors)).

Definition handleRateLimitError (env : Env) : ApiError.t :=
  ApiError.tooManyRequests env
    (Some "Too many requests from this IP. Please try again later.").

(** [corsErrorHandler], which sits before the global handler. *)
Definition corsErrorHandler (env : Env) (err : Thrown) : Thrown :=
  if includes (Thrown.message err) "CORS"
  then ThrowApiError (ApiError.forbidden env (Some "CORS policy violation"))
  else err.

(** [globalErrorHandler].  The tests on [err.name] that no error of
    [Thrown] passes (token, upload, network, timeout and syntax errors)
    are left out; the others run in the order of the source, a later one
    overriding an earlier one. *)
Definition globalErrorHandler (env : Env) (err : Thrown) (reqPath reqMethod : string)
    : HttpResponse :=
  let error := Copy err in
  let error :=
    match err with
    | ThrowCastError path value => Instance (handleCastErrorDB env path value)
    | _ => error
    end in
  let error :=
    match err with
    | ThrowDuplicateKey field value => Instance (handleDuplicateFieldsDB env field value)
    | _ => error
    end in
  let error :=
    match err with
    | ThrowValidationError errors => Instance (handleValidationErrorDB env errors)
    | _ => error
    end in
  let error :=
    if includes (Thrown.message err) "rate limit"
    then Instance (handleRateLimitError env)
    else error in
  if String.eqb (NODE_ENV env) "development"
  then sendErrorDev env error reqPath reqMethod
  else sendErrorProd env error reqPath.

End ErrorHandler.

(** ** controllers/company.controller.ts *)

(** How a handler ends: with a response it sent, or with an error it let
    escape to the middleware. *)
Inductive Outcome : Type :=
| Sent (r : HttpResponse)
| Threw (e : Thrown).

Module Controller.

Import Js.

Definition send (status : Z) (body : JsVal) : Outcome :=
  Sent {| status := status; body := body |}.

Definition messageBody (m : string) : JsVal := JObj [("message", JStr m)].
Definition errorBody (e : Thrown) : JsVal := JObj [("error", JStr (Thrown.message e))].

(** *** createCompany *)

(** [!v?.trim()] for the variable called [var]: a value that is neither
    missing nor a string has no [trim] to call. *)
Definition blank (var : string) (v : JsVal) : Thrown + bool :=
  match v with
  | JUndefined | JNull => inr true
  | JStr s => inr (String.eqb (trim s) "")
  | _ => inl (ThrowTypeError (var +:+ "?.trim is not a function"))
  end.

(** [typeof loc !== 'string' || loc.trim().length === 0] *)
Definition badLocation (loc : JsVal) : bool :=
  match loc with
  | JStr s => Nat.eqb (String.length (trim s)) 0
  | _ => true
  end.

Definition locationErrors (location : JsVal) : list string :=
  match location with
  | JArr [] => ["At least one location is required"]
  | JArr l =>
      if existsb badLocation l
      then ["Each location must be a non-empty string"]
      else []
  | _ => ["At least one location is required"]
  end.

Definition pushIf (b : bool) (msg : string) : list string :=
  if b then [msg] else [].

(** The [errors] array once the four field checks have run, or the
    TypeError one of the first two raised. *)
Definition fieldErrors (body : JsObject) : Thrown + list string :=
  match blank "name" (get body "name") with
  | inl e => inl e
  | inr noName =>
      match blank "email" (get body "email") with
      | inl e => inl e
      | inr noEmail =>
          inr (pushIf noName "Name is required" ++
               pushIf noEmail "Email is required" ++
               pushIf (negb (truthy (get body "industry"))) "Industry is required" ++
               locationErrors (get body "location"))
      end
  end.

(** [industryEnum.includes(industry)] *)
Definition industryAllowed (industry : JsVal) : bool :=
  match industry with
  | JStr s => bool_decide (s ∈ Company.industryEnum)
  | _ => false
  end.

Definition invalidIndustry : string :=
  "Invalid industry. Allowed values are: " +:+ join ", " Company.industryEnum.

(** The object literal handed to [Company.create]. *)
Definition createFields : list string :=
  ["name"; "description"; "industry"; "foundedYear"; "location"; "website";
   "email"; "phone"; "employees"; "logo"; "headquarters"; "revenue"].

Definition createObject (body : JsObject) : JsObject :=
  list_to_map (map (fun k => (k, get body k)) createFields).

(** The three failures the handler raises itself. *)
Definition missingFields (env : Env) (errors : list string) : Thrown :=
  ThrowApiError (ApiError.badRequest env (Some "Missing fields") (Some errors)).

Definition alreadyExisting (env : Env) : Thrown :=
  ThrowApiError (ApiError.new env 400 (Some "Already existing company") None).

Definition invalidEnum (env : Env) : Thrown :=
  ThrowApiError (ApiError.badRequest env (Some invalidIndustry) None).

Definition created (env : Env) (newCompany : Company.t) : Outcome :=
  send 201 (ApiResponse.toJSON
    (ApiResponse.new env 201 (Some "Company created successfully")
       (JObj (Company.toObject env newCompany)) None)).

(** [Company.create] resolves to the saved document or throws, so the
    [if (!newCompany)] that follows it never fires.  Once the field
    checks have passed, [name] and [email] are strings: the last case of
    the match on them cannot occur. *)
Definition createCompany (env : Env) (body : JsObject) (st : Store.t)
    : option (Store.t * Outcome) :=
  match fieldErrors body with
  | inl e => Some (st, Threw e)
  | inr ((_ :: _) as errors) => Some (st, Threw (missingFields env errors))
  | inr [] =>
      match get body "name", get body "email" with
      | JStr name, JStr email =>
          match Store.findOneByNameOrEmail env name email st with
          | Some _ => Some (st, Threw (alreadyExisting env))
          | None =>
              if negb (industryAllowed (get body "industry")) then
                Some (st, Threw (invalidEnum env))
              else
                match Store.create env (createObject body) st with
                | None => None
                | Some (st', inl err) => Some (st', Threw err)
                | Some (st', inr newCompany) => Some (st', created env newCompany)
                end
          end
      | _, _ => None
      end
  end.

(** *** getAllCompanies *)

(** [Number(v)] for a query value or the numeric default that replaces a
    missing one. *)
Definition numberOr (dflt : Z) (v : JsVal) : option Z :=
  match v with
  | JUndefined => Some dflt
  | JStr s => ToNumber s
  | JNum n => Some n
  | _ => None
  end.

Definition getAllCompanies (query : JsObject) (st : Store.t) : option Outcome :=
  page ← numberOr 1 (get query "page");
  limit ← numberOr 10 (get query "limit");
  companies ← Store.aggregatePage ((page - 1) * limit) limit st;
  Some (send 200 (JArr companies)).

(** *** getCompanyById *)

(** [{ ...obj, key: v }] *)
Fixpoint assign (obj : list (string * JsVal)) (key : string) (v : JsVal)
    : list (string * JsVal) :=
  match obj with
  | [] => [(key, v)]
  | (k, x) :: rest =>
      if String.eqb k key then (k, v) :: rest else (k, x) :: assign rest key v
  end.

Definition getCompanyById (env : Env) (id : string) (st : Store.t) : Outcome :=
  match Store.findById id st with
  | inl err => send 500 (errorBody err)
  | inr None => send 404 (messageBody "Company not found")
  | inr (Some company) =>
      send 200 (JObj (assign (Company.toObject env company) "companyAge"
                        (JNum (Company.getCompanyAge env company))))
  end.

(** *** updateCompany *)

Definition allowedFields : list string :=
  ["logo"; "description"; "location"; "phone"; "isActive"].

(** The loop over [allowedFields] that fills [updateData]. *)
Definition collect (updates : JsObject) (updateData : JsObject) (field : string)
    : JsObject :=
  if defined (get updates field)
  then <[field := get updates field]> updateData
  else updateData.

Definition updateData (updates : JsObject) : JsObject :=
  foldl (collect updates) ∅ allowedFields.

(** What the handler sends once [findByIdAndUpdate] has returned or
    thrown. *)
Definition updated (env : Env) (r : Thrown + option Company.t) : Outcome :=
  match r with
  | inl err => send 500 (errorBody err)
  | inr None => send 404 (messageBody "Company not found")
  | inr (Some company) => send 200 (JObj (Company.toObject env company))
  end.

Definition updateCompany (env : Env) (id : string) (updates : JsObject)
    (st : Store.t) : option (Store.t * Outcome) :=
  let updateData := updateData updates in
  if Nat.eqb (size updateData) 0 then
    Some (st, send 400 (messageBody "No fields provided to update"))
  else
    '(st', r) ← Store.findByIdAndUpdate env id updateData st;
    Some (st', updated env r).

(** *** deleteCompany *)

Definition deleteCompany (id : string) (st : Store.t) : Store.t * Outcome :=
  match Store.findByIdAndDelete id st with
  | (st', inl err) => (st', send 500 (errorBody err))
  | (st', inr None) => (st', send 404 (messageBody "Company not found"))
  | (st', inr (Some _)) => (st', send 200 (messageBody "Company deleted successfully"))
  end.

(** *** searchSuggestion *)

(** The body of the [forEach]: what one fetched document adds to
    [result]. *)
Definition suggest (r : Regex.Regex) (result : StringSet) (s : Company.t)
    : StringSet :=
  let result :=
    if Regex.test r (Company.name s) then Set_add (Company.name s) result
    else result in
  let result :=
    if Regex.test r (Company.industry s) then Set_add (Company.industry s) result
    else result in
  foldl (fun result loc => if Regex.test r loc then Set_add loc result else result)
    result (Company.location s).

Definition suggestionsOf (r : Regex.Regex) (suggestions : Store.t) : StringSet :=
  foldl (suggest r) [] suggestions.

Definition searchSuggestion (query : JsObject) (st : Store.t) : option Outcome :=
  match get query "q" with
  | JStr q =>
      suggestions ← Store.findSuggestions q st;
      r ← Regex.RegExp_i q;
      Some (send 200 (ApiError.strings (suggestionsOf r suggestions)))
  | _ => Some (send 400 (messageBody "Invalid query parameter"))
  end.

(** *** searchCompanies *)

(** [if (v) ...] on a query value: a missing or empty one sets nothing, a
    string sets the member; an array or object, as the query parser
    builds for a repeated or bracketed parameter, is outside the
    fragment. *)
Definition given (v : JsVal) : option (option string) :=
  match v with
  | JUndefined => Some None
  | JStr s => if String.eqb s "" then Some None else Some (Some s)
  | _ => None
  end.

(** A member computed from a given value by [parse]. *)
Definition givenAs (parse : string -> option Z) (v : JsVal) : option (option Z) :=
  o ← given v;
  match o with
  | None => Some None
  | Some s => option_map Some (parse s)
  end.

(** [if (isActive !== undefined) filters.isActive = isActive === 'true'] *)
Definition givenActive (v : JsVal) : option bool :=
  match v with
  | JUndefined => None
  | JStr s => Some (String.eqb s "true")
  | _ => Some false
  end.

Definition buildFilters (query : JsObject) : option Store.Filters :=
  name ← given (get query "name");
  location ← given (get query "location");
  industry ← given (get query "industry");
  employees ← givenAs ToNumber (get query "employees");
  createdAt ← givenAs DateParse (get query "createdAt");
  foundedYear ← givenAs ToNumber (get query "foundedYear");
  Some {| Store.f_name := name;
          Store.f_location := location;
          Store.f_industry := industry;
          Store.f_isActive := givenActive (get query "isActive");
          Store.f_employees := employees;
          Store.f_createdAt := createdAt;
          Store.f_foundedYear := foundedYear |}.

(** [res.status(200).json(companies)] for lean documents. *)
Definition found (companies : Store.t) : Outcome :=
  send 200 (JArr (map (fun c => JObj (Company.lean c)) companies)).

Definition searchCompanies (query : JsObject) (st : Store.t) : option Outcome :=
  filters ← buildFilters query;
  companies ← Store.findMany filters st;
  Some (found companies).

End Controller.

(** ** routes/company.routes.ts and the error middleware of app.ts *)

Module App.

Import Js.

Inductive Request : Type :=
| PostCompany (body : JsObject)                     (* POST / *)
| GetSuggestions (query : JsObject)                 (* GET /search/suggestions *)
| GetSearch (query : JsObject)                      (* GET /search *)
| GetCompanies (query : JsObject)                   (* GET / *)
| GetCompany (id : string)                          (* GET /:id *)
| PatchCompany (id : string) (body : JsObject)      (* PATCH /:id *)
| DeleteCompany (id : string).                      (* DELETE /:id *)

Definition method (req : Request) : string :=
  match req with
  | PostCompany _ => "POST"
  | PatchCompany _ _ => "PATCH"
  | DeleteCompany _ => "DELETE"
  | _ => "GET"
  end.

(** [req.path] inside the router. *)
Definition path (req : Request) : string :=
  match req with
  | PostCompany _ | GetCompanies _ => "/"
  | GetSuggestions _ => "/search/suggestions"
  | GetSearch _ => "/search"
  | GetCompany id | PatchCompany id _ | DeleteCompany id => "/" +:+ id
  end.

(** An error a handler lets escape goes, through [asyncHandler] and
    [next], to [corsErrorHandler] and then to [globalErrorHandler]. *)
Definition respond (env : Env) (req : Request) (o : Outcome) : HttpResponse :=
  match o with
  | Sent r => r
  | Threw e =>
      ErrorHandler.globalErrorHandler env (ErrorHandler.corsErrorHandler env e)
        (path req) (method req)
  end.

(** The handler the router picks for a request. *)
Definition dispatch (env : Env) (req : Request) (st : Store.t)
    : option (Store.t * Outcome) :=
  match req with
  | PostCompany body => Controller.createCompany env body st
  | GetSuggestions query => pair st <$> Controller.searchSuggestion query st
  | GetSearch query => pair st <$> Controller.searchCompanies query st
  | GetCompanies query => pair st <$> Controller.getAllCompanies query st
  | GetCompany id => Some (st, Controller.getCompanyById env id st)
  | PatchCompany id body => Controller.updateCompany env id body st
  | DeleteCompany id => Some (Controller.deleteCompany id st)
  end.

(** One request served: the store it leaves and the response. *)
Definition handle (env : Env) (req : Request) (st : Store.t)
    : option (Store.t * HttpResponse) :=
  '(st', o) ← dispatch env req st;
  Some (st', respond env req o).

(** The stores the service can be in: the empty collection and whatever
    a served request leaves.  The identifier the driver draws for a
    request is a well-formed ObjectId. *)
Inductive Reachable : Store.t -> Prop :=
| reach_empty : Reachable []
| reach_step env req st st' r :
    Reachable st ->
    Store.validObjectId (newObjectId env) = true ->
    handle env req st = Some (st', r) ->
    Reachable st'.

End App.

(** ** middleware/errorHandler.ts, on any error

    [ErrorHandler] follows the middleware on the errors the company
    handlers raise.  This module follows it on an arbitrary error object,
    given by what the middleware reads of it. *)

Module ErrorMiddleware.

Import Js.

(** [interface ExtendedError].  [statusCode] and [isOperational] are the
    own members of the error, which its spread copy keeps: a missing
    [statusCode] is [None], a missing [isOperational] is [false].  [path]
    and [value] are strings when present, and so are the values of
    [keyValue]; [errors] gives the message of each entry, under its key.
    [copied] is what [JSON.stringify] writes for the spread copy once its
    [message] has been set. *)
Record ExtendedError : Type := {
  name : string;
  message : string;
  statusCode : option Z;
  isOperational : bool;
  code : JsVal;
  path : option string;
  value : option string;
  keyValue : option (list (string * string));
  errors : option (list (string * string));
  type : JsVal;
  copied : JsVal
}.

(** [v === s] for a string literal [s]. *)
Definition isStr (v : JsVal) (s : string) : bool :=
  match v with
  | JStr x => String.eqb x s
  | _ => false
  end.

(** [v === n] for a number literal [n]. *)
Definition isNum (v : JsVal) (n : Z) : bool :=
  match v with
  | JNum x => x =? n
  | _ => false
  end.

(** A member inside a template literal: a missing one prints as
    [undefined]. *)
Definition template (o : option string) : string := default "undefined" o.

(** [Object.keys] and [Object.values] of a missing object throw. *)
Definition notAnObject : Thrown :=
  ThrowTypeError "Cannot convert undefined or null to object".

Definition handleCastErrorDB (env : Env) (err : ExtendedError) : ApiError.t :=
  ErrorHandler.handleCastErrorDB env (template (path err)) (template (value err)).

Definition handleDuplicateFieldsDB (env : Env) (err : ExtendedError)
    : Thrown + ApiError.t :=
  match keyValue err with
  | None => inl notAnObject
  | Some kv =>
      let field := option_map fst (head kv) in
      let value := option_map snd (head kv) in
      inr (ErrorHandler.handleDuplicateFieldsDB env (template field) (template value))
  end.

Definition handleValidationErrorDB (env : Env) (err : ExtendedError)
    : Thrown + ApiError.t :=
  match errors err with
  | None => inl notAnObject
  | Some errs => inr (ErrorHandler.handleValidationErrorDB env errs)
  end.

Definition handleJWTError (env : Env) : ApiError.t :=
  ApiError.unauthorized env (Some "Invalid token. Please log in again.").

Definition handleJWTExpiredError (env : Env) : ApiError.t :=
  ApiError.unauthorized env (Some "Your token has expired. Please log in again.").

Definition handleMongooseConnectionError (env : Env) : ApiError.t :=
  ApiError.serviceUnavailable env
    (Some "Database connection failed. Please try again later.").

Definition handleMongooseTimeoutError (env : Env) : ApiError.t :=
  ApiError.gatewayTimeout env
    (Some "Database operation timed out. Please try again.").

Definition handleMulterError (env : Env) (err : ExtendedError) : ApiError.t :=
  if isStr (code err) "LIMIT_FILE_SIZE" then
    ApiError.badRequest env (Some "File too large. Maximum size allowed is 5MB.") None
  else if isStr (code err) "LIMIT_FILE_COUNT" then
    ApiError.badRequest env (Some "Too many files. Maximum 5 files allowed.") None
  else if isStr (code err) "LIMIT_UNEXPECTED_FILE" then
    ApiError.badRequest env (Some "Unexpected file field.") None
  else
    ApiError.badRequest env (Some "File upload error.") None.

Definition handleSyntaxError (env : Env) (err : ExtendedError) : ApiError.t :=
  if isStr (type err) "entity.parse.failed" then
    ApiError.badRequest env (Some "Invalid JSON format in request body.") None
  else
    ApiError.badRequest env (Some "Syntax error in request.") None.

Definition handleMongoServerSelectionError (env : Env) : ApiError.t :=
  ApiError.serviceUnavailable env
    (Some "Unable to connect to database. Please try again later.").

Definition handleMongoNetworkError (env : Env) : ApiError.t :=
  ApiError.serviceUnavailable env
    (Some "Database network error. Please try again later.").

(** [notFoundHandler]: the error it hands to [next]. *)
Definition notFoundHandler (env : Env) (reqMethod originalUrl : string) : ApiError.t :=
  ApiError.notFound env (Some ("Cannot " +:+ reqMethod +:+ " " +:+ originalUrl)).

(** The [error] variable of the global handler: the spread copy of what
    was thrown, or the [ApiError] that replaced it. *)
Inductive Handled : Type :=
| Copy (err : ExtendedError)
| Instance (e : ApiError.t).

(** [err.statusCode || 500]. *)
Definition statusOr500 (h : Handled) : Z :=
  match h with
  | Copy err =>
      match statusCode err with
      | Some n => if n =? 0 then 500 else n
      | None => 500
      end
  | Instance e => if ApiError.statusCode e =? 0 then 500 else ApiError.statusCode e
  end.

Definition operational (h : Handled) : bool :=
  match h with
  | Copy err => isOperational err
  | Instance e => ApiError.isOperational e
  end.

Definition messageOf (h : Handled) : string :=
  match h with
  | Copy err => message err
  | Instance e => ApiError.message e
  end.

(** [err.stack]: a stack is not enumerable, so a copy has none. *)
Definition stackOf (h : Handled) : JsVal :=
  match h with
  | Copy _ => JUndefined
  | Instance e => JStr (ApiError.stack e)
  end.

Definition json (h : Handled) : JsVal :=
  match h with
  | Copy err => copied err
  | Instance e => ApiError.toJSON e
  end.

Definition sendErrorDev (env : Env) (err : Handled) (reqPath reqMethod : string)
    : HttpResponse :=
  let statusCode := statusOr500 err in
  {| status := statusCode;
     body := ApiResponse.jsonObject
       [("success", JBool false);
        ("statusCode", JNum statusCode);
        ("message", JStr (messageOf err));
        ("error", json err);
        ("stack", stackOf err);
        ("path", JStr reqPath);
        ("method", JStr reqMethod);
        ("timestamp", JStr (nowISO env))] |}.

Definition genericMessage : string :=
  "Something went wrong on our end. Please try again later.".

Definition sendErrorProd (env : Env) (err : Handled) (reqPath : string)
    : HttpResponse :=
  let statusCode := statusOr500 err in
  if operational err then
    {| status := statusCode;
       body := JObj
         [("success", JBool false);
          ("statusCode", JNum statusCode);
          ("message", JStr (messageOf err));
          ("timestamp", JStr (nowISO env));
          ("path", JStr reqPath)] |}
  else
    {| status := 500;
       body := JObj
         [("success", JBool false);
          ("statusCode", JNum 500);
          ("message", JStr genericMessage);
          ("timestamp", JStr (nowISO env));
          ("path", JStr reqPath)] |}.

(** One [if (test) error = replacement] of the global handler. *)
Definition replaceIf (test : bool) (replacement : ApiError.t) (error : Handled)
    : Handled :=
  if test then Instance replacement else error.

(** The same when the replacement is computed by a function that can
    throw: it is called only when the test passes. *)
Definition replaceIfBy (test : bool) (replacement : Thrown + ApiError.t)
    (error : Handled) : Thrown + Handled :=
  if test then
    match replacement with
    | inl e => inl e
    | inr a => inr (Instance a)
    end
  else inr error.

(** [globalErrorHandler]: the tests run in the order of the source, a
    later one that passes overriding an earlier one.  The result is the
    response, or the error one of the [handle...] functions threw. *)
Definition globalErrorHandler (env : Env) (err : ExtendedError)
    (reqPath reqMethod : string) : Thrown + HttpResponse :=
  let error := Copy err in
  let error :=
    replaceIf (String.eqb (name err) "CastError") (handleCastErrorDB env err) error in
  match replaceIfBy (isNum (code err) 11000) (handleDuplicateFieldsDB env err) error with
  | inl e => inl e
  | inr error =>
  match replaceIfBy (String.eqb (name err) "ValidationError")
          (handleValidationErrorDB env err) error with
  | inl e => inl e
  | inr error =>
      let error :=
        replaceIf (String.eqb (name err) "JsonWebTokenError") (handleJWTError env) error in
      let error :=
        replaceIf (String.eqb (name err) "TokenExpiredError")
          (handleJWTExpiredError env) error in
      let error :=
        replaceIf (String.eqb (name err) "MongooseServerSelectionError")
          (handleMongoServerSelectionError env) error in
      let error :=
        replaceIf (String.eqb (name err) "MongoNetworkError")
          (handleMongoNetworkError env) error in
      let error :=
        replaceIf (String.eqb (name err) "MongooseTimeoutError")
          (handleMongooseTimeoutError env) error in
      let error :=
        replaceIf (String.eqb (name err) "MongoError" &&
                   includes (message err) "connection")
          (handleMongooseConnectionError env) error in
      let error :=
        replaceIf (String.eqb (name err) "MulterError") (handleMulterError env err) error in
      let error :=
        replaceIf (String.eqb (name err) "RateLimitError" ||
                   includes (message err) "rate limit")
          (ErrorHandler.handleRateLimitError env) error in
      let error :=
        replaceIf (String.eqb (name err) "SyntaxError") (handleSyntaxError env err) error in
      inr (if String.eqb (NODE_ENV env) "development"
           then sendErrorDev env error reqPath reqMethod
           else sendErrorProd env error reqPath)
  end
  end.

(** The error object of each error the company handlers raise.  The
    [errors] of an [ApiError] is a list of strings, which the middleware
    reads for an error named [ValidationError] only: it is left out. *)
Definition ofThrown (e : Thrown) : ExtendedError :=
  {| name := Thrown.name e;
     message := Thrown.message e;
     statusCode := Thrown.statusCode e;
     isOperational := Thrown.isOperational e;
     code := match Thrown.code e with Some n => JNum n | None => JUndefined end;
     path := match e with
             | ThrowCastError p _ => Some p
             | ThrowApiError a => ApiError.path a
             | _ => None
             end;
     value := match e with ThrowCastError _ v => Some v | _ => None end;
     keyValue := match e with ThrowDuplicateKey k v => Some [(k, v)] | _ => None end;
     errors := match e with ThrowValidationError errs => Some errs | _ => None end;
     type := JUndefined;
     copied := ErrorHandler.json (ErrorHandler.Copy e) |}.

End ErrorMiddleware.

(** * The specification's words, and sample data *)

Import Js Regex.


(** ** Sample data *)

Definition sampleEnv : Env :=
  {| now := 1735689600000;
     nowISO := "2025-01-01T00:00:00.000Z";
     fullYear := 2025;
     schemaYear := 2025;
     stackTrace := "Error: at createCompany";
     NODE_ENV := "production";
     newObjectId := "60f7b3b3b3b3b3b3b3b3b3b3";
     settersOnQuery := true |}.

Definition acmeCorp : Company.t :=
  {| Company._id := "65a000000000000000000001";
     Company.name := "Acme Corp";
     Company.description := None;
     Company.industry := "Technology";
     Company.foundedYear := Some 2010;
     Company.location := ["New York"];
     Company.website := None;
     Company.email := "corp@acme.com";
     Company.phone := None;
     Company.employees := Some 120;
     Company.isActive := true;
     Company.logo := None;
     Company.headquarters := None;
     Company.revenue := None;
     Company.createdAt := 1700000000000;
     Company.updatedAt := 1700000000000 |}.

Definition acmeLabs : Company.t :=
  {| Company._id := "65a000000000000000000002";
     Company.name := "Acme Labs";
     Company.description := None;
     Company.industry := "Healthcare";
     Company.foundedYear := None;
     Company.location := ["Boston"; "New York"];
     Company.website := None;
     Company.email := "labs@acme.com";
     Company.phone := None;
     Company.employees := Some 30;
     Company.isActive := true;
     Company.logo := None;
     Company.headquarters := None;
     Company.revenue := None;
     Company.createdAt := 1710000000000;
     Company.updatedAt := 1710000000000 |}.

Definition sampleStore : Store.t := [acmeCorp; acmeLabs].

(** An update body whose keys all lie outside the allow-list. *)
Definition renameBody : JsObject :=
  {[ "name" := JStr "Acme International"; "email" := JStr "hq@acme.com" ]}.

(** An update body whose only member is [isActive: false]. *)
Definition deactivateBody : JsObject := {[ "isActive" := JBool false ]}.

(** ** Create-time violations, in the specification's words *)


(** A value that is a string or absent, as the API schema types [name]
    and [email]. *)
Definition textOrAbsent (v : JsVal) : bool :=
  match v with
  | JUndefined | JNull | JStr _ => true
  | _ => false
  end.




(** An existing record whose name or email is the one of the create
    body, as the duplicate check compares them. *)
Definition matchesExisting (env : Env) (body : JsObject) (c : Company.t) : Prop :=
  exists name email : string,
    get body "name" = JStr name /\
    get body "email" = JStr email /\
    (Company.name c = Store.queryName env name \/
     Company.email c = Store.queryEmail env email).

Definition duplicated (env : Env) (body : JsObject) (st : Store.t) : Prop :=
  exists c : Company.t, c ∈ st /\ matchesExisting env body c.

(** A well-formed create body with an industry outside the enum. *)
Definition unknownIndustryBody : JsObject :=
  {[ "name" := JStr "Globex";
     "email" := JStr "info@globex.com";
     "industry" := JStr "Aerospace";
     "location" := JArr [JStr "Springfield"] ]}.

(** How a create request can end, in the order the handler decides it. *)
Inductive CreateCase (env : Env) (body : JsObject) (st : Store.t)
    : Store.t -> Outcome -> Prop :=
| create_type_error m :
    Controller.fieldErrors body = inl (ThrowTypeError m) ->
    CreateCase env body st st (Threw (ThrowTypeError m))
| create_missing_fields err errs :
    Controller.fieldErrors body = inr (err :: errs) ->
    CreateCase env body st st (Threw (Controller.missingFields env (err :: errs)))
| create_already_existing :
    Controller.fieldErrors body = inr [] ->
    duplicated env body st ->
    CreateCase env body st st (Threw (Controller.alreadyExisting env))
| create_invalid_enum :
    Controller.fieldErrors body = inr [] ->
    ~ duplicated env body st ->
    Controller.industryAllowed (get body "industry") = false ->
    CreateCase env body st st (Threw (Controller.invalidEnum env))
| create_rejected_by_store e :
    Controller.fieldErrors body = inr [] ->
    ~ duplicated env body st ->
    Controller.industryAllowed (get body "industry") = true ->
    Store.create env (Controller.createObject body) st = Some (st, inl e) ->
    (exists errs, e = ThrowValidationError errs) \/
    (exists key value, e = ThrowDuplicateKey key value) ->
    CreateCase env body st st (Threw e)
| create_inserted doc :
    Controller.fieldErrors body = inr [] ->
    ~ duplicated env body st ->
    Controller.industryAllowed (get body "industry") = true ->
    Store.create env (Controller.createObject body) st = Some (st ++ [doc], inr doc) ->
    CreateCase env body st (st ++ [doc]) (Controller.created env doc).


(** ** The response envelope, in the specification's words *)

(** [obj.key] on an object value. *)
Definition member (v : JsVal) (key : string) : JsVal :=
  match v with
  | JObj fields =>
      match find (fun kv => String.eqb kv.1 key) fields with
      | Some kv => kv.2
      | None => JUndefined
      end
  | _ => JUndefined
  end.

Definition isBoolean (v : JsVal) : bool :=
  match v with JBool _ => true | _ => false end.

Definition isNumber (v : JsVal) : bool :=
  match v with JNum _ => true | _ => false end.

Definition isString (v : JsVal) : bool :=
  match v with JStr _ => true | _ => false end.

Definition isStrings (v : JsVal) : bool :=
  match v with JArr l => forallb isString l | _ => false end.

Definition optional (p : JsVal -> bool) (v : JsVal) : bool :=
  negb (defined v) || p v.

(** The envelope: an object with a Boolean [success], a numeric
    [statusCode], a string [message] and a string [timestamp], and
    possibly [data], a list of strings [errors] and a string [path]. *)
Definition isEnvelope (v : JsVal) : bool :=
  match v with
  | JObj _ =>
      isBoolean (member v "success") &&
      isNumber (member v "statusCode") &&
      isString (member v "message") &&
      isString (member v "timestamp") &&
      optional isStrings (member v "errors") &&
      optional isString (member v "path")
  | _ => false
  end.

(** ** Search constraints, in the specification's words *)







(** ** Regular languages *)

(** The words of a regular expression. *)
Inductive Matches : Regex.Regex -> list ascii -> Prop :=
| MEps : Matches Regex.REps []
| MChar k c : Regex.classMem k c = true -> Matches (Regex.RChar k) [c]
| MCat r1 r2 w1 w2 :
    Matches r1 w1 -> Matches r2 w2 -> Matches (Regex.RCat r1 r2) (w1 ++ w2)
| MAltL r1 r2 w : Matches r1 w -> Matches (Regex.RAlt r1 r2) w
| MAltR r1 r2 w : Matches r2 w -> Matches (Regex.RAlt r1 r2) w
| MStarNil r : Matches (Regex.RStar r) []
| MStarApp r w1 w2 :
    Matches r w1 -> Matches (Regex.RStar r) w2 -> Matches (Regex.RStar r) (w1 ++ w2).

(** ** Suggestions, in the specification's words *)


(** The individual values a record can contribute: its name, its
    industry and each of its locations. *)
Definition fieldValues (c : Company.t) : list string :=
  Company.name c :: Company.industry c :: Company.location c.



Definition suggestionBody (vals : list string) : Outcome :=
  Controller.send 200 (ApiError.strings vals).

(** The step of the suggestion loop on one field value. *)
Definition addIf (p : string -> bool) (result : StringSet) (x : string) : StringSet :=
  if p x then Set_add x result else result.



(** ** Uniqueness, in the specification's words *)

(** Names and emails are each unique across the stored records. *)
Definition Unique (st : Store.t) : Prop :=
  NoDup (map Company.name st) /\ NoDup (map Company.email st).

(** Two create bodies with equal name or equal email. *)
Definition sameNameOrEmail (b1 b2 : JsObject) : Prop :=
  get b1 "name" = get b2 "name" \/ get b1 "email" = get b2 "email".

(** A conflict-class error: the 400 of the duplicate pre-check, or the
    duplicate-key error of a unique index. *)
Definition ConflictClass (env : Env) (e : Thrown) : Prop :=
  e = Controller.alreadyExisting env \/
  exists key value : string, e = ThrowDuplicateKey key value.

(** The create handler answered by itself, which it does with 201 only. *)
Definition succeeded (o : Outcome) : Prop :=
  exists r : HttpResponse, o = Sent r.

Definition conflicted (env : Env) (o : Outcome) : Prop :=
  exists e : Thrown, o = Threw e /\ ConflictClass env e.

(** The uniqueness property as the specification states it: of any two
    create requests with equal name or equal email, served one after the
    other, exactly one succeeds and the other fails with a conflict-class
    error. *)
Definition UniquenessAsStated : Prop :=
  forall (env1 env2 : Env) (b1 b2 : JsObject) (st st1 st2 : Store.t) (o1 o2 : Outcome),
    sameNameOrEmail b1 b2 ->
    Controller.createCompany env1 b1 st = Some (st1, o1) ->
    Controller.createCompany env2 b2 st1 = Some (st2, o2) ->
    (succeeded o1 /\ conflicted env2 o2) \/ (succeeded o2 /\ conflicted env1 o1).

(** The create body of the specification's scenario. *)
Definition techCorpBody : JsObject :=
  {[ "name" := JStr "Tech Corp";
     "email" := JStr "a@b.com";
     "industry" := JStr "Technology";
     "location" := JArr [JStr "NY"] ]}.

(** The same name with another email. *)
Definition techCorpAgainBody : JsObject :=
  {[ "name" := JStr "Tech Corp";
     "email" := JStr "c@d.com";
     "industry" := JStr "Technology";
     "location" := JArr [JStr "NY"] ]}.

(** The same name without an industry. *)
Definition techCorpNoIndustryBody : JsObject :=
  {[ "name" := JStr "Tech Corp";
     "email" := JStr "c@d.com";
     "location" := JArr [JStr "NY"] ]}.

(** A later request, which draws another identifier. *)
Definition laterEnv : Env :=
  {| now := 1735689660000;
     nowISO := "2025-01-01T00:01:00.000Z";
     fullYear := 2025;
     schemaYear := 2025;
     stackTrace := "Error: at createCompany";
     NODE_ENV := "production";
     newObjectId := "60f7b3b3b3b3b3b3b3b3b3b4";
     settersOnQuery := true |}.

(** What the scenario's first request leaves and answers on an empty
    store, and likewise the request with the same name served first. *)
Definition storeOf (o : option (Store.t * Outcome)) : Store.t :=
  match o with
  | Some (st, _) => st
  | None => []
  end.

Definition responseOf (o : option (Store.t * Outcome)) : HttpResponse :=
  match o with
  | Some (_, Sent r) => r
  | _ => {| status := 0; body := JUndefined |}
  end.

Definition techCorpCreated : option (Store.t * Outcome) :=
  Eval vm_compute in Controller.createCompany sampleEnv techCorpBody [].

Definition techCorpAgainCreated : option (Store.t * Outcome) :=
  Eval vm_compute in Controller.createCompany laterEnv techCorpAgainBody [].

(** ** Stored records *)

(** What holds of every record of a reachable store: identifiers are
    well-formed and pairwise distinct, and a founding year, when set, is
    within the range the schema allows. *)
Definition validRecord (c : Company.t) : Prop :=
  Store.validObjectId (Company._id c) = true /\
  forall y, Company.foundedYear c = Some y -> 1800 <= y.

Definition WellFormed (st : Store.t) : Prop :=
  NoDup (map Company._id st) /\ Forall validRecord st.

(** A create body with a founding year. *)
Definition initechBody : JsObject :=
  {[ "name" := JStr "Initech";
     "email" := JStr "office@initech.com";
     "industry" := JStr "Technology";
     "foundedYear" := JNum 2010;
     "location" := JArr [JStr "Austin"] ]}.

Definition initechCreated : option (Store.t * Outcome) :=
  Eval vm_compute in Controller.createCompany sampleEnv initechBody [].

Definition initech : Company.t := hd acmeCorp (storeOf initechCreated).

(** * Further notions and sample data *)

(** ** Errors the global handler does not recognise *)

(** The names the global handler tests for. *)
Definition handledNames : list string :=
  ["CastError"; "ValidationError"; "JsonWebTokenError"; "TokenExpiredError";
   "MongooseServerSelectionError"; "MongoNetworkError"; "MongooseTimeoutError";
   "MongoError"; "MulterError"; "RateLimitError"; "SyntaxError"].

(** An error that passes none of the tests of the global handler. *)
Definition unrecognised (err : ErrorMiddleware.ExtendedError) : Prop :=
  (ErrorMiddleware.name err ∉ handledNames) /\
  ErrorMiddleware.isNum (ErrorMiddleware.code err) 11000 = false /\
  includes (ErrorMiddleware.message err) "rate limit" = false.

(** The members the handlers that read the error need are there. *)
Definition readable (err : ErrorMiddleware.ExtendedError) : Prop :=
  (ErrorMiddleware.isNum (ErrorMiddleware.code err) 11000 = true ->
   is_Some (ErrorMiddleware.keyValue err)) /\
  (ErrorMiddleware.name err = "ValidationError" ->
   is_Some (ErrorMiddleware.errors err)).

(** The error the JSON body parser raises on a malformed body. *)
Definition malformedJson : ErrorMiddleware.ExtendedError :=
  {| ErrorMiddleware.name := "SyntaxError";
     ErrorMiddleware.message := "Unexpected end of JSON input";
     ErrorMiddleware.statusCode := Some 400;
     ErrorMiddleware.isOperational := false;
     ErrorMiddleware.code := JUndefined;
     ErrorMiddleware.path := None;
     ErrorMiddleware.value := None;
     ErrorMiddleware.keyValue := None;
     ErrorMiddleware.errors := None;
     ErrorMiddleware.type := JStr "entity.parse.failed";
     ErrorMiddleware.copied :=
       JObj [("expose", JBool true);
             ("statusCode", JNum 400);
             ("status", JNum 400);
             ("body", JStr "{");
             ("type", JStr "entity.parse.failed");
             ("message", JStr "Unexpected end of JSON input")] |}.

(** A failure of the program itself. *)
Definition rangeError : ErrorMiddleware.ExtendedError :=
  {| ErrorMiddleware.name := "RangeError";
     ErrorMiddleware.message := "Maximum call stack size exceeded";
     ErrorMiddleware.statusCode := None;
     ErrorMiddleware.isOperational := false;
     ErrorMiddleware.code := JUndefined;
     ErrorMiddleware.path := None;
     ErrorMiddleware.value := None;
     ErrorMiddleware.keyValue := None;
     ErrorMiddleware.errors := None;
     ErrorMiddleware.type := JUndefined;
     ErrorMiddleware.copied :=
       JObj [("message", JStr "Maximum call stack size exceeded")] |}.

(** A 404 raised by a handler whose message speaks of a rate limit. *)
Definition noRateLimitPlan : ErrorMiddleware.ExtendedError :=
  ErrorMiddleware.ofThrown
    (ThrowApiError (ApiError.notFound sampleEnv (Some "No rate limit plan found"))).

(** The same environment in development mode. *)
Definition devEnv : Env :=
  {| now := now sampleEnv;
     nowISO := nowISO sampleEnv;
     fullYear := fullYear sampleEnv;
     schemaYear := schemaYear sampleEnv;
     stackTrace := stackTrace sampleEnv;
     NODE_ENV := "development";
     newObjectId := newObjectId sampleEnv;
     settersOnQuery := settersOnQuery sampleEnv |}.

(** ** Stored records and the schema *)

(** The paths of a record no request changes once it is stored. *)
Definition fixedPaths (c : Company.t) :=
  (Company._id c, Company.name c, Company.industry c, Company.foundedYear c,
   Company.website c, Company.email c, Company.employees c,
   Company.headquarters c, Company.revenue c, Company.createdAt c).



Definition globexDraft : Company.Draft :=
  {| Company.d_name := Some "Globex";
     Company.d_description := None;
     Company.d_industry := Some "Technology";
     Company.d_foundedYear := None;
     Company.d_location := ["Springfield"];
     Company.d_website := Some "https://globex.com";
     Company.d_email := Some "info@globex.com";
     Company.d_phone := None;
     Company.d_employees := None;
     Company.d_isActive := true;
     Company.d_logo := None;
     Company.d_headquarters := None;
     Company.d_revenue := None |}.

(** The record [c] after an update that sets its locations to [locs]. *)
Definition withLocations (env : Env) (locs : list string) (c : Company.t) : Company.t :=
  {| Company._id := Company._id c;
     Company.name := Company.name c;
     Company.description := Company.description c;
     Company.industry := Company.industry c;
     Company.foundedYear := Company.foundedYear c;
     Company.location := locs;
     Company.website := Company.website c;
     Company.email := Company.email c;
     Company.phone := Company.phone c;
     Company.employees := Company.employees c;
     Company.isActive := Company.isActive c;
     Company.logo := Company.logo c;
     Company.headquarters := Company.headquarters c;
     Company.revenue := Company.revenue c;
     Company.createdAt := Company.createdAt c;
     Company.updatedAt := now env |}.

(** An update body that sets the locations to [locs]. *)
Definition locationsBody (locs : list string) : JsObject :=
  {[ "location" := JArr (map JStr locs) ]}.

(** What get-by-id answers for a stored record. *)
Definition details (env : Env) (c : Company.t) : Outcome :=
  Controller.send 200
    (JObj (Controller.assign (Company.toObject env c) "companyAge"
             (JNum (Company.getCompanyAge env c)))).

(** What get, update and delete answer for an identifier no record has,
    and for one that does not cast to an ObjectId. *)
Definition notFound : Outcome :=
  Controller.send 404 (Controller.messageBody "Company not found").


(** The store a create of Initech leaves on the empty store. *)
Definition initechStore : Store.t := storeOf initechCreated.

(** A create body whose name is a number. *)
Definition numericNameBody : JsObject :=
  {[ "name" := JNum 42;
     "email" := JStr "a@b.com";
     "industry" := JStr "Technology";
     "location" := JArr [JStr "NY"] ]}.



(** A create body that the handler accepts and the schema refuses: its
    email has not the shape of an address. *)
Definition badEmailBody : JsObject :=
  {[ "name" := JStr "Hooli";
     "email" := JStr "hooli";
     "industry" := JStr "Technology";
     "location" := JArr [JStr "Palo Alto"] ]}.

(** An environment whose driver draws the identifier of the record the
    scenario's first request stored. *)
Definition sameIdEnv : Env :=
  {| now := now laterEnv;
     nowISO := nowISO laterEnv;
     fullYear := fullYear laterEnv;
     schemaYear := schemaYear laterEnv;
     stackTrace := stackTrace laterEnv;
     NODE_ENV := NODE_ENV laterEnv;
     newObjectId := newObjectId sampleEnv;
     settersOnQuery := true |}.


(** ** The schema's validators, as constraints on a draft *)

(** A required string path: present and not empty. *)
Definition requiredText (o : option string) (p : string -> Prop) : Prop :=
  exists s, o = Some s /\ s <> "" /\ p s.

(** An optional path: when present, it satisfies [p]. *)
Definition whenSet {A : Type} (o : option A) (p : A -> Prop) : Prop :=
  forall a, o = Some a -> p a.

(** What the schema asks of a draft. *)
Definition acceptable (env : Env) (d : Company.Draft) : Prop :=
  requiredText (Company.d_name d) (fun s => Company.len s <= 100) /\
  whenSet (Company.d_description d) (fun s => Company.len s <= 1000) /\
  requiredText (Company.d_industry d) (fun s => s ∈ Company.industryEnum) /\
  whenSet (Company.d_foundedYear d)
    (fun y => 1800 <= y <= schemaYear env /\ y <= fullYear env) /\
  (Company.d_location d <> [] /\
   Forall (fun loc => Company.len loc <= 200) (Company.d_location d)) /\
  whenSet (Company.d_website d)
    (fun s => s = "" \/ testPrefix Company.urlRegex s = true) /\
  requiredText (Company.d_email d)
    (fun s => testAnchored Company.emailRegex s = true) /\
  whenSet (Company.d_phone d)
    (fun s => s = "" \/
              testAnchored Company.phoneRegex (Company.stripSeparators s) = true) /\
  whenSet (Company.d_employees d) (fun n => 1 <= n <= 10000000) /\
  whenSet (Company.d_headquarters d) (fun s => Company.len s <= 200) /\
  whenSet (Company.d_revenue d) (fun n => 0 <= n).

(** ** Listing and searching *)

(** The paths an item of the list endpoint can hold: those of the
    projection that are stored. *)
Definition listedPaths : list string :=
  ["_id"; "name"; "description"; "industry"; "foundedYear"; "location";
   "website"; "isActive"; "logo"].


(** A search for the records whose [isActive] is the text [s]. *)
Definition activeQuery (s : string) : JsObject := {[ "isActive" := JStr s ]}.

(** Whether a record is active is what the flag says. *)
Definition activeIs (flag : bool) (c : Company.t) : bool :=
  Bool.eqb (Company.isActive c) flag.

(** A suggestion query with an empty text. *)
Definition emptyQuery : JsObject := {[ "q" := JStr "" ]}.

(** The body a handler sent. *)
Definition answer (o : Outcome) : JsVal :=
  match o with
  | Sent r => body r
  | Threw _ => JUndefined
  end.

(** ** Tactics *)

(** Two outcomes that differ by the name or by the message of the error
    they throw. *)
Ltac thrown_differ H :=
  first
    [ discriminate H
    | apply (f_equal (fun o => match o with
                               | Threw e => Thrown.name e
                               | Sent _ => ""
                               end)) in H;
      vm_compute in H; discriminate H
    | apply (f_equal (fun o => match o with
                               | Threw e => Thrown.message e
                               | Sent _ => ""
                               end)) in H;
      vm_compute in H; discriminate H ].


(** * Properties *)

(** ** Response envelope *)

(** C8. Building a response envelope from a status code, a message and an
    optional payload only fills a record: its [success] member is true
    exactly when the status code is below 400, it carries the status
    code, the message and the payload it was given, and its timestamp is
    the clock reading taken at construction. *)
Theorem ApiResponse_new_success_iff_below_400
    (env : Env) (statusCode : Z) (message : string) (data : JsVal)
    (path : option string) :
  let r := ApiResponse.new env statusCode (Some message) data path in
  (ApiResponse.success r = true <-> statusCode < 400) /\
  ApiResponse.statusCode r = statusCode /\
  ApiResponse.message r = message /\
  ApiResponse.data r = data /\
  ApiResponse.path r = path /\
  ApiResponse.timestamp r = nowISO env.
Proof.
  cbn. rewrite Z.ltb_lt. tauto.
Qed.

(** ** Lookups in the store *)

Lemma byId_true (id : string) (c : Company.t) :
  Store.byId id c = true <-> Company._id c = id.
Proof. unfold Store.byId. apply String.eqb_eq. Qed.

Lemma find_byId_unique (st : Store.t) (c : Company.t) :
  NoDup (map Company._id st) -> c ∈ st ->
  find (Store.byId (Company._id c)) st = Some c.
Proof.
  induction st as [|d st IH]; intros Hnd Hin.
  - inversion Hin.
  - cbn [map] in Hnd. apply NoDup_cons in Hnd as [Hd Hnd].
    cbn [find]. destruct (Store.byId (Company._id c) d) eqn:E.
    + apply byId_true in E.
      apply elem_of_cons in Hin as [->|Hin]; [done|].
      exfalso. apply Hd. rewrite E. apply list_elem_of_fmap. eauto.
    + apply elem_of_cons in Hin as [->|Hin].
      * assert (Store.byId (Company._id d) d = true) by by apply byId_true.
        congruence.
      * by apply IH.
Qed.

(** ** Get-by-id *)

Lemma assign_app_fresh (l r : list (string * JsVal)) (key : string) (v : JsVal) :
  key ∉ map fst l ->
  Controller.assign (l ++ r) key v = l ++ Controller.assign r key v.
Proof.
  induction l as [|[k x] l IH]; intros Hk; [done|].
  cbn. destruct (String.eqb k key) eqn:E.
  - apply String.eqb_eq in E. subst. exfalso. apply Hk. cbn. left.
  - f_equal. apply IH. intros ?. apply Hk. cbn. by right.
Qed.

Lemma present_keys (l : list (string * JsVal)) (k : string) :
  k ∈ map fst (Company.present l) -> k ∈ map fst l.
Proof.
  unfold Company.present. intros H.
  apply list_elem_of_fmap in H as [kv [-> H]].
  apply list_elem_of_filter in H as [_ H].
  apply list_elem_of_fmap. eauto.
Qed.

Lemma companyAge_not_stored (c : Company.t) :
  "companyAge" ∉ map fst (Company.lean c).
Proof.
  intros H. apply present_keys in H. cbn in H.
  repeat (apply elem_of_cons in H as [H|H]; [discriminate|]).
  inversion H.
Qed.

(** ** Update *)

Lemma collect_lookup (updates acc : JsObject) (f k : string) :
  Controller.collect updates acc f !! k =
    if bool_decide (k = f) && defined (get updates k)
    then Some (get updates k) else acc !! k.
Proof.
  unfold Controller.collect. case_bool_decide as Hk; cbn.
  - subst k. destruct (defined (get updates f)); [|done].
    by rewrite lookup_insert_eq.
  - destruct (defined (get updates f)); [|done].
    by rewrite lookup_insert_ne.
Qed.

Lemma foldl_collect_lookup (updates : JsObject) (fields : list string)
    (acc : JsObject) (k : string) :
  foldl (Controller.collect updates) acc fields !! k =
    if bool_decide (k ∈ fields) && defined (get updates k)
    then Some (get updates k) else acc !! k.
Proof.
  revert acc. induction fields as [|f fields IH]; intros acc; cbn [foldl].
  - case_bool_decide as H; [inversion H|done].
  - rewrite IH, collect_lookup.
    destruct (defined (get updates k)); rewrite ?andb_true_r, ?andb_false_r; [|done].
    destruct (decide (k = f)) as [Heq|Hne], (decide (k ∈ fields)) as [Hin|Hnin].
    + by rewrite !bool_decide_eq_true_2 by (done || by right).
    + rewrite (bool_decide_eq_false_2 _ Hnin), !bool_decide_eq_true_2;
        [done|by subst; left|done].
    + by rewrite !bool_decide_eq_true_2 by (done || by right).
    + rewrite (bool_decide_eq_false_2 _ Hnin), (bool_decide_eq_false_2 _ Hne).
      rewrite bool_decide_eq_false_2; [done|].
      intros [?|?]%elem_of_cons; done.
Qed.

Lemma updateData_lookup (updates : JsObject) (k : string) :
  Controller.updateData updates !! k =
    if bool_decide (k ∈ Controller.allowedFields) && defined (get updates k)
    then Some (get updates k) else None.
Proof.
  unfold Controller.updateData. by rewrite foldl_collect_lookup, lookup_empty.
Qed.

Lemma updateData_empty (updates : JsObject) :
  (forall k, k ∈ Controller.allowedFields -> defined (get updates k) = false) ->
  Controller.updateData updates = ∅.
Proof.
  intros H. apply map_eq. intros k.
  rewrite updateData_lookup, lookup_empty.
  case_bool_decide as Hk; [|done]. by rewrite (H k Hk).
Qed.

(** C4. Of an update body only the keys of the allow-list
    {logo, description, location, phone, isActive} are retained, each with
    the value the body gives it; when nothing is retained, as for every
    body whose keys all lie outside the allow-list, the handler answers
    400 "No fields provided to update" and leaves the store as it was. *)
Theorem updateCompany_keeps_only_allowed_fields
    (env : Env) (id : string) (updates : JsObject) (st : Store.t) :
  (forall (k : string) (v : JsVal),
     Controller.updateData updates !! k = Some v ->
     k ∈ ["logo"; "description"; "location"; "phone"; "isActive"] /\
     updates !! k = Some v) /\
  (Controller.updateData updates = ∅ ->
     Controller.updateCompany env id updates st =
       Some (st, Controller.send 400
                   (Controller.messageBody "No fields provided to update"))) /\
  ((forall k : string,
      k ∈ ["logo"; "description"; "location"; "phone"; "isActive"] ->
      updates !! k = None) ->
     Controller.updateData updates = ∅).
Proof.
  split; [|split].
  - intros k v. rewrite updateData_lookup.
    case_bool_decide as Hk; cbn; [|done].
    unfold get. destruct (updates !! k) as [x|]; cbn; [|done].
    destruct (defined x); [|done]. intros [= ->]. done.
  - intros E. unfold Controller.updateCompany. rewrite E. done.
  - intros H. apply updateData_empty. intros k Hk.
    unfold get. by rewrite (H k Hk).
Qed.

Lemma updateCompany_keeps_only_allowed_fields_witness :
  Controller.updateCompany sampleEnv "65a000000000000000000001" renameBody sampleStore =
    Some (sampleStore,
          Controller.send 400 (Controller.messageBody "No fields provided to update")).
Proof.
  destruct (updateCompany_keeps_only_allowed_fields sampleEnv
              "65a000000000000000000001" renameBody sampleStore)
    as (_ & Hempty & Houtside).
  apply Hempty, Houtside.
  intros k Hk. unfold renameBody.
  repeat (apply elem_of_cons in Hk as [->|Hk]; [reflexivity|]).
  inversion Hk.
Defined.

(** C10. In the update handler an allow-listed key counts as provided as
    soon as its value is not [undefined]: whatever that value is (false,
    null, 0 and the empty string included) it is kept in the update set,
    and the handler does not answer "No fields provided to update" but
    goes on to [findByIdAndUpdate] with that set. *)
Theorem updateCompany_keeps_defined_falsy_values
    (env : Env) (id : string) (updates : JsObject) (st : Store.t)
    (field : string) (v : JsVal) :
  field ∈ Controller.allowedFields ->
  updates !! field = Some v ->
  v <> JUndefined ->
  Controller.updateData updates !! field = Some v /\
  Controller.updateCompany env id updates st =
    '(st', r) ← Store.findByIdAndUpdate env id (Controller.updateData updates) st;
    Some (st', Controller.updated env r).
Proof.
  intros Hf Hv Hdef.
  assert (Hl : Controller.updateData updates !! field = Some v).
  { rewrite updateData_lookup, bool_decide_eq_true_2 by done.
    unfold get. rewrite Hv. cbn. by destruct v. }
  split; [done|].
  unfold Controller.updateCompany.
  destruct (Nat.eqb_spec (size (Controller.updateData updates)) 0) as [E|E]; [|done].
  apply map_size_empty_iff in E. rewrite E in Hl. by rewrite lookup_empty in Hl.
Qed.

Lemma updateCompany_keeps_defined_falsy_values_witness :
  Controller.updateData deactivateBody !! "isActive" = Some (JBool false) /\
  Controller.updateCompany sampleEnv "65a000000000000000000001" deactivateBody sampleStore =
    '(st', r) ← Store.findByIdAndUpdate sampleEnv "65a000000000000000000001"
                  (Controller.updateData deactivateBody) sampleStore;
    Some (st', Controller.updated sampleEnv r).
Proof.
  apply (updateCompany_keeps_defined_falsy_values sampleEnv
           "65a000000000000000000001" deactivateBody sampleStore "isActive" (JBool false)).
  - by apply (bool_decide_unpack _).
  - reflexivity.
  - discriminate.
Defined.

(** ** Strings *)


Lemma str_chars (s : string) : str (chars s) = s.
Proof. apply string_of_list_ascii_of_string. Qed.







(** ** Create: field-shape validation *)



Lemma existsb_eq {A : Type} (f g : A -> bool) (l : list A) :
  (forall a, f a = g a) -> existsb f l = existsb g l.
Proof. intros H. induction l as [|a l IH]; cbn; [done|]. by rewrite H, IH. Qed.






(** How the middleware renders that failure.  In development the
    response carries the thrown error, and with it the whole list; in
    any other mode [sendErrorProd] sends the status and the message
    only. *)
Lemma missingFields_rendered_in_development (env : Env) (errors : list string)
    (reqPath reqMethod : string) :
  NODE_ENV env = "development" ->
  let r := ErrorHandler.globalErrorHandler env
             (ErrorHandler.corsErrorHandler env (Controller.missingFields env errors))
             reqPath reqMethod in
  status r = 400 /\
  member (member (body r) "error") "errors" = ApiError.strings errors.
Proof.
  intros E. unfold ErrorHandler.globalErrorHandler. rewrite E.
  split; reflexivity.
Qed.

Lemma missingFields_rendered_in_production (env : Env) (errors : list string)
    (reqPath reqMethod : string) :
  NODE_ENV env <> "development" ->
  ErrorHandler.globalErrorHandler env
    (ErrorHandler.corsErrorHandler env (Controller.missingFields env errors))
    reqPath reqMethod =
  {| status := 400;
     body := JObj [("success", JBool false);
                   ("statusCode", JNum 400);
                   ("message", JStr "Missing fields");
                   ("timestamp", JStr (nowISO env));
                   ("path", JStr reqPath)] |}.
Proof.
  intros E. apply String.eqb_neq in E.
  unfold ErrorHandler.globalErrorHandler. by rewrite E.
Qed.

(** ** Create: the order of the checks *)

Lemma fieldErrors_nil (body : JsObject) :
  Controller.fieldErrors body = inr [] ->
  exists name email : string,
    get body "name" = JStr name /\ get body "email" = JStr email.
Proof.
  unfold Controller.fieldErrors.
  destruct (get body "name") as [| | | |n| | |]; cbn; try discriminate;
  destruct (get body "email") as [| | | |e| | |]; cbn; try discriminate;
  try (destruct (String.eqb (trim n) ""); discriminate).
  eauto.
Qed.

Lemma findOne_Some (env : Env) (name email : string) (st : Store.t) (c : Company.t) :
  Store.findOneByNameOrEmail env name email st = Some c ->
  c ∈ st /\
  (Company.name c = Store.queryName env name \/
   Company.email c = Store.queryEmail env email).
Proof.
  intros H. apply find_some in H as [Hin H]. split; [by apply list_elem_of_In|].
  apply orb_true_iff in H as [H|H]; apply String.eqb_eq in H; auto.
Qed.

Lemma findOne_None (env : Env) (name email : string) (st : Store.t) (c : Company.t) :
  Store.findOneByNameOrEmail env name email st = None ->
  c ∈ st ->
  Company.name c <> Store.queryName env name /\
  Company.email c <> Store.queryEmail env email.
Proof.
  intros H Hin. apply list_elem_of_In in Hin.
  pose proof (find_none _ _ H c Hin) as Hc.
  apply orb_false_iff in Hc as [H1 H2].
  apply String.eqb_neq in H1, H2. done.
Qed.

Lemma findOne_duplicated (env : Env) (body : JsObject) (st : Store.t)
    (name email : string) :
  get body "name" = JStr name ->
  get body "email" = JStr email ->
  is_Some (Store.findOneByNameOrEmail env name email st) <-> duplicated env body st.
Proof.
  intros Hn He. split.
  - intros [c Hc]. apply findOne_Some in Hc as [Hin Hc].
    exists c. split; [done|]. by exists name, email.
  - intros (c & Hin & n & e & Hn' & He' & Hc).
    rewrite Hn in Hn'. rewrite He in He'. injection Hn' as <-. injection He' as <-.
    destruct (Store.findOneByNameOrEmail env name email st) eqn:E; [done|].
    destruct (findOne_None _ _ _ _ c E Hin). tauto.
Qed.

Lemma create_store (env : Env) (obj : JsObject) (st st' : Store.t)
    (r : Thrown + Company.t) :
  Store.create env obj st = Some (st', r) ->
  (st' = st /\ exists e, r = inl e /\
     ((exists errs, e = ThrowValidationError errs) \/
      (exists key value, e = ThrowDuplicateKey key value))) \/
  (exists doc, st' = st ++ [doc] /\ r = inr doc).
Proof.
  unfold Store.create. destruct (Company.cast obj) as [d|]; cbn; [|done].
  destruct (Company.validate env d) as [|err errs].
  - destruct (Store.duplicateKey _ st) as [[key value]|]; intros [= <- <-].
    + left. split; [done|]. eexists. split; [done|]. right. eauto.
    + right. eauto.
  - intros [= <- <-]. left. split; [done|]. eexists. split; [done|]. left. eauto.
Qed.

Lemma fieldErrors_inl (body : JsObject) (e : Thrown) :
  Controller.fieldErrors body = inl e -> exists m, e = ThrowTypeError m.
Proof.
  unfold Controller.fieldErrors, Controller.blank.
  destruct (get body "name"); try (intros [= <-]; eauto);
  destruct (get body "email"); try (intros [= <-]; eauto); discriminate.
Qed.

Lemma createCompany_cases (env : Env) (body : JsObject) (st st' : Store.t)
    (out : Outcome) :
  Controller.createCompany env body st = Some (st', out) ->
  CreateCase env body st st' out.
Proof.
  unfold Controller.createCompany.
  destruct (Controller.fieldErrors body) as [e|[|err errs]] eqn:F.
  - destruct (fieldErrors_inl _ _ F) as [m ->]. intros [= <- <-]. by constructor.
  - destruct (fieldErrors_nil _ F) as (name & email & Hn & He). rewrite Hn, He.
    pose proof (findOne_duplicated env body st name email Hn He) as Hdup.
    destruct (Store.findOneByNameOrEmail env name email st) as [c|] eqn:E.
    + intros [= <- <-]. constructor; [done|]. apply Hdup. eauto.
    + assert (Hno : ~ duplicated env body st).
      { intros H. apply Hdup in H. by destruct H. }
      destruct (Controller.industryAllowed (get body "industry")) eqn:I; cbn [negb].
      * destruct (Store.create env (Controller.createObject body) st)
          as [[st1 [e|doc]]|] eqn:C; [| |done]; intros [= <- <-].
        -- destruct (create_store _ _ _ _ _ C) as [(-> & e' & [= <-] & He')|(doc & _ & [=])].
           by apply create_rejected_by_store.
        -- destruct (create_store _ _ _ _ _ C) as [(_ & e' & [=] & _)|(doc' & -> & [= <-])].
           by apply create_inserted.
      * intros [= <- <-]. by constructor.
  - intros [= <- <-]. by constructor.
Qed.

(** C3. On create, the duplicate check (Conflict, 400 "Already existing
    company", when a stored record has the name or the email of the
    body) is reached only once field-shape validation has passed; the
    industry check (InvalidEnum, a 400 whose message names every allowed
    value) is reached only after it found nothing; and the store changes,
    by the one inserted document, only when all three have passed: a
    request that fails any create-time check leaves the store as it
    was. *)
Theorem createCompany_writes_only_after_all_checks
    (env : Env) (body : JsObject) (st st' : Store.t) (out : Outcome) :
  Controller.createCompany env body st = Some (st', out) ->
  (out = Threw (Controller.alreadyExisting env) <->
     Controller.fieldErrors body = inr [] /\ duplicated env body st) /\
  (out = Threw (Controller.invalidEnum env) <->
     Controller.fieldErrors body = inr [] /\ ~ duplicated env body st /\
     Controller.industryAllowed (get body "industry") = false) /\
  (st' <> st ->
     Controller.fieldErrors body = inr [] /\ ~ duplicated env body st /\
     Controller.industryAllowed (get body "industry") = true /\
     exists doc, st' = st ++ [doc] /\ out = Controller.created env doc) /\
  (forall e, out = Threw e -> st' = st) /\
  Thrown.statusCode (Controller.alreadyExisting env) = Some 400 /\
  Thrown.statusCode (Controller.invalidEnum env) = Some 400 /\
  (forall v, v ∈ Company.industryEnum ->
     includes (Thrown.message (Controller.invalidEnum env)) v = true).
Proof.
  intros H. apply createCompany_cases in H.
  assert (Henum : forall v, v ∈ Company.industryEnum ->
            includes (Thrown.message (Controller.invalidEnum env)) v = true).
  { intros v Hv. unfold Company.industryEnum in Hv.
    repeat (apply elem_of_cons in Hv as [->|Hv]; [by vm_compute|]).
    inversion Hv. }
  destruct H as [m F|err errs F|F D|F D I|e F D I C He|doc F D I C];
    (split; [split|split; [split|split; [|split; [|split; [|split]]]]]);
    try done;
    try (intros E; thrown_differ E);
    try (intros E; destruct He as [[? ->]|(? & ? & ->)]; thrown_differ E);
    try (intros (F' & _); rewrite F in F'; discriminate F');
    try (intros (_ & D' & _); done);
    try (intros (_ & D'); done);
    try (intros (_ & _ & I'); congruence).
  intros _. eauto 10.
Qed.

Lemma createCompany_writes_only_after_all_checks_witness :
  Controller.fieldErrors unknownIndustryBody = inr [] /\
  ~ duplicated sampleEnv unknownIndustryBody sampleStore /\
  Controller.industryAllowed (get unknownIndustryBody "industry") = false.
Proof.
  apply (createCompany_writes_only_after_all_checks sampleEnv unknownIndustryBody
           sampleStore sampleStore (Threw (Controller.invalidEnum sampleEnv)));
    reflexivity.
Defined.

(** ** The response envelope across the endpoints *)

(** C7. The responses of the company endpoints are not all enveloped.
    Get-by-id for an identifier that resolves to no record answers 404
    with the bare object [{ message: "Company not found" }], and the list
    endpoint answers 200 with a bare array; neither has the [success],
    [statusCode] and [timestamp] members of the envelope. *)
Theorem handlers_answer_outside_the_envelope :
  App.handle sampleEnv (App.GetCompany "65a000000000000000000009") sampleStore =
    Some (sampleStore,
          {| status := 404;
             body := JObj [("message", JStr "Company not found")] |}) /\
  isEnvelope (JObj [("message", JStr "Company not found")]) = false /\
  App.handle sampleEnv (App.GetCompanies ∅) [] =
    Some ([], {| status := 200; body := JArr [] |}) /\
  isEnvelope (JArr []) = false.
Proof. repeat split; by vm_compute. Qed.

(** The create endpoint, by contrast, envelopes whatever it answers:
    through [ApiResponse] on success and through the error middleware on
    failure. *)
Lemma sendErrorProd_enveloped (env : Env) (h : ErrorHandler.Handled) (p : string) :
  isEnvelope (body (ErrorHandler.sendErrorProd env h p)) = true.
Proof.
  unfold ErrorHandler.sendErrorProd.
  by destruct (ErrorHandler.isOperational h).
Qed.

Lemma sendErrorDev_enveloped (env : Env) (h : ErrorHandler.Handled) (p m : string) :
  isEnvelope (body (ErrorHandler.sendErrorDev env h p m)) = true.
Proof.
  destruct h as [[a| | | |]|a]; by vm_compute.
Qed.

Lemma createCompany_enveloped (env : Env) (b : JsObject) (st st' : Store.t)
    (r : HttpResponse) :
  App.handle env (App.PostCompany b) st = Some (st', r) ->
  isEnvelope (body r) = true.
Proof.
  unfold App.handle. cbn [App.dispatch].
  destruct (Controller.createCompany env b st) as [[st1 out]|] eqn:E; [|done].
  cbn [mbind option_bind]. intros [= <- <-]. apply createCompany_cases in E.
  assert (Herr : forall e, isEnvelope (body (App.respond env (App.PostCompany b) (Threw e))) = true).
  { intros e. cbn [App.respond]. unfold ErrorHandler.globalErrorHandler.
    destruct (String.eqb (NODE_ENV env) "development");
      [apply sendErrorDev_enveloped|apply sendErrorProd_enveloped]. }
  destruct E; try apply Herr.
  unfold Controller.created, Controller.send. cbn [App.respond body].
  unfold ApiResponse.toJSON, ApiResponse.new.
  cbn [ApiResponse.success ApiResponse.statusCode ApiResponse.message
       ApiResponse.data ApiResponse.timestamp ApiResponse.path].
  generalize (Company.toObject env doc). intros fields. by vm_compute.
Qed.

(** ** Search filters *)



Lemma filter_eq {A : Type} (p q : A -> bool) (l : list A) :
  (forall x, p x = q x) -> List.filter p l = List.filter q l.
Proof.
  intros H. induction l as [|x l IH]; cbn; [done|]. by rewrite H, IH.
Qed.











(** ** Regular expressions: the matcher decides the language *)


Lemma Matches_none_inv (w : list ascii) : ~ Matches RNone w.
Proof. intros H. inversion H. Qed.

Lemma Matches_eps_inv (w : list ascii) : Matches REps w -> w = [].
Proof. intros H. by inversion H. Qed.

Lemma Matches_char_inv (k : CharClass) (w : list ascii) :
  Matches (RChar k) w -> exists c, w = [c] /\ classMem k c = true.
Proof. intros H. inversion H; subst. eauto. Qed.

Lemma Matches_cat_inv (r1 r2 : Regex) (w : list ascii) :
  Matches (RCat r1 r2) w ->
  exists w1 w2, w = w1 ++ w2 /\ Matches r1 w1 /\ Matches r2 w2.
Proof. intros H. inversion H; subst. eauto. Qed.

Lemma Matches_alt_inv (r1 r2 : Regex) (w : list ascii) :
  Matches (RAlt r1 r2) w -> Matches r1 w \/ Matches r2 w.
Proof. intros H. inversion H; subst; auto. Qed.

Lemma Matches_nil_cat (r1 r2 : Regex) :
  Matches (RCat r1 r2) [] <-> Matches r1 [] /\ Matches r2 [].
Proof.
  split.
  - intros (w1 & w2 & E & H1 & H2)%Matches_cat_inv.
    symmetry in E. apply app_eq_nil in E as [-> ->]. done.
  - intros [H1 H2]. by apply (MCat _ _ [] []).
Qed.

Lemma nullable_Matches (r : Regex) : nullable r = true <-> Matches r [].
Proof.
  induction r as [| |k|r1 IH1 r2 IH2|r1 IH1 r2 IH2|r IH]; cbn.
  - split; [done|]. by intros ?%Matches_none_inv.
  - split; [constructor|done].
  - split; [done|]. intros (c & [=] & _)%Matches_char_inv.
  - rewrite andb_true_iff, IH1, IH2. symmetry. apply Matches_nil_cat.
  - rewrite orb_true_iff, IH1, IH2. split.
    + intros [H|H]; [by apply MAltL|by apply MAltR].
    + apply Matches_alt_inv.
  - split; [constructor|done].
Qed.

Lemma Matches_mkCat (r1 r2 : Regex) (w : list ascii) :
  Matches (mkCat r1 r2) w <-> Matches (RCat r1 r2) w.
Proof.
  assert (Hnone1 : forall r, Matches RNone w <-> Matches (RCat RNone r) w).
  { intros r. split; [by intros ?%Matches_none_inv|].
    by intros (? & ? & _ & ?%Matches_none_inv & _)%Matches_cat_inv. }
  assert (Hnone2 : forall r, Matches RNone w <-> Matches (RCat r RNone) w).
  { intros r. split; [by intros ?%Matches_none_inv|].
    by intros (? & ? & _ & _ & ?%Matches_none_inv)%Matches_cat_inv. }
  assert (Heps : forall r, Matches r w <-> Matches (RCat REps r) w).
  { intros r. split.
    - intros H. apply (MCat _ _ [] w); [constructor|done].
    - intros (w1 & w2 & -> & ->%Matches_eps_inv & H2)%Matches_cat_inv. done. }
  destruct r1; try apply Hnone1; destruct r2;
    first [apply Hnone2 | apply Heps | reflexivity].
Qed.

Lemma Matches_mkAlt (r1 r2 : Regex) (w : list ascii) :
  Matches (mkAlt r1 r2) w <-> Matches (RAlt r1 r2) w.
Proof.
  assert (Hl : forall r, Matches r w <-> Matches (RAlt RNone r) w).
  { intros r. split; [by apply MAltR|].
    by intros [?%Matches_none_inv|?]%Matches_alt_inv. }
  assert (Hr : forall r, Matches r w <-> Matches (RAlt r RNone) w).
  { intros r. split; [by apply MAltL|].
    by intros [?|?%Matches_none_inv]%Matches_alt_inv. }
  assert (Hsame : forall r, Matches r w <-> Matches (RAlt r r) w).
  { intros r. split; [by apply MAltL|]. by intros [?|?]%Matches_alt_inv. }
  unfold mkAlt.
  destruct r1; try apply Hl; destruct r2; try apply Hr;
    case_decide as E; try reflexivity; try rewrite <- E; apply Hsame.
Qed.

Lemma Matches_cat_cons (r1 r2 : Regex) (c : ascii) (w : list ascii) :
  Matches (RCat r1 r2) (c :: w) <->
  (exists w1 w2, w = w1 ++ w2 /\ Matches r1 (c :: w1) /\ Matches r2 w2) \/
  (Matches r1 [] /\ Matches r2 (c :: w)).
Proof.
  split.
  - intros (w1 & w2 & E & H1 & H2)%Matches_cat_inv.
    destruct w1 as [|x w1]; cbn in E.
    + right. by subst.
    + left. injection E as <- ->. eauto.
  - intros [(w1 & w2 & -> & H1 & H2)|[H1 H2]].
    + by apply (MCat _ _ (c :: w1) w2).
    + by apply (MCat _ _ [] (c :: w)).
Qed.

Lemma Matches_star_cons (r : Regex) (c : ascii) (w : list ascii) :
  Matches (RStar r) (c :: w) <->
  exists w1 w2, w = w1 ++ w2 /\ Matches r (c :: w1) /\ Matches (RStar r) w2.
Proof.
  split.
  - intros H. remember (RStar r) as s eqn:Es. remember (c :: w) as cw eqn:Ew.
    revert Es Ew.
    induction H as [| | | | | |r' w1 w2 H1 _ H2 IH2]; intros Es Ew; try discriminate.
    injection Es as ->. destruct w1 as [|x w1]; cbn in Ew.
    + by apply IH2.
    + injection Ew as -> <-. eauto.
  - intros (w1 & w2 & -> & H1 & H2). by apply (MStarApp _ (c :: w1) w2).
Qed.

Lemma deriv_Matches (r : Regex) (c : ascii) (w : list ascii) :
  Matches (deriv c r) w <-> Matches r (c :: w).
Proof.
  revert w. induction r as [| |k|r1 IH1 r2 IH2|r1 IH1 r2 IH2|r IH]; intros w; cbn.
  - split; by intros ?%Matches_none_inv.
  - split; [by intros ?%Matches_none_inv|by intros [=]%Matches_eps_inv].
  - destruct (classMem k c) eqn:E; split.
    + intros ->%Matches_eps_inv. by constructor.
    + intros (x & [= -> ->] & _)%Matches_char_inv. constructor.
    + by intros ?%Matches_none_inv.
    + intros (x & [= -> ->] & ?)%Matches_char_inv. congruence.
  - rewrite Matches_cat_cons.
    destruct (nullable r1) eqn:N.
    + rewrite Matches_mkAlt. split.
      * intros [H|H]%Matches_alt_inv.
        -- apply Matches_mkCat, Matches_cat_inv in H as (w1 & w2 & -> & Ha & Hb).
           left. exists w1, w2. by rewrite <- IH1.
        -- right. split; [by apply nullable_Matches|by apply IH2].
      * intros [(w1 & w2 & -> & H1 & H2)|[H1 H2]].
        -- apply MAltL, Matches_mkCat. constructor; [by apply IH1|done].
        -- apply MAltR. by apply IH2.
    + rewrite Matches_mkCat. split.
      * intros (w1 & w2 & -> & Ha & Hb)%Matches_cat_inv.
        left. exists w1, w2. by rewrite <- IH1.
      * intros [(w1 & w2 & -> & H1 & H2)|[H1 H2]].
        -- constructor; [by apply IH1|done].
        -- apply nullable_Matches in H1. congruence.
  - rewrite Matches_mkAlt. split.
    + intros [H|H]%Matches_alt_inv; [apply MAltL; by apply IH1|apply MAltR; by apply IH2].
    + intros [H|H]%Matches_alt_inv; [apply MAltL; by apply IH1|apply MAltR; by apply IH2].
  - rewrite Matches_mkCat, Matches_star_cons. split.
    + intros (w1 & w2 & -> & Ha & Hb)%Matches_cat_inv.
      exists w1, w2. by rewrite <- IH.
    + intros (w1 & w2 & -> & H1 & H2). constructor; [by apply IH|done].
Qed.

Lemma matches_Matches (r : Regex) (w : list ascii) :
  matches r w = true <-> Matches r w.
Proof.
  revert r. induction w as [|c w IH]; intros r; cbn.
  - apply nullable_Matches.
  - rewrite IH. apply deriv_Matches.
Qed.

Lemma Matches_any_star (w : list ascii) : Matches (RStar (RChar CAny)) w.
Proof.
  induction w as [|c w IH]; [constructor|].
  apply (MStarApp _ [c] w); [by constructor|done].
Qed.

(** An unanchored pattern tests true on the strings with a substring in
    its language. *)
Lemma test_spec (r : Regex) (s : string) :
  test r s = true <->
  exists pre mid post, chars s = pre ++ mid ++ post /\ Matches r mid.
Proof.
  unfold test. rewrite matches_Matches. split.
  - intros (pre & rest & -> & _ & H)%Matches_cat_inv.
    apply Matches_cat_inv in H as (mid & post & -> & H & _). eauto.
  - intros (pre & mid & post & -> & H).
    constructor; [apply Matches_any_star|].
    constructor; [done|apply Matches_any_star].
Qed.



Lemma startsWithL_spec (p l : list ascii) :
  startsWithL p l = true <-> exists post, l = p ++ post.
Proof.
  revert l. induction p as [|a p IH]; intros l; cbn.
  - split; eauto.
  - destruct l as [|b l].
    + split; [done|]. intros (? & [=]).
    + rewrite andb_true_iff, Ascii.eqb_eq, IH. split.
      * intros (-> & post & ->). eauto.
      * intros (post & [= -> ->]). eauto.
Qed.




(** ** Suggestions *)

Lemma Set_has_true (x : string) (s : StringSet) : Set_has x s = true <-> x ∈ s.
Proof.
  unfold Set_has. rewrite existsb_exists. split.
  - intros (y & Hy & ->%String.eqb_eq). by apply list_elem_of_In.
  - intros H. exists x. split; [by apply list_elem_of_In|apply String.eqb_refl].
Qed.

Lemma elem_of_Set_add (x y : string) (s : StringSet) :
  y ∈ Set_add x s <-> y = x \/ y ∈ s.
Proof.
  unfold Set_add. destruct (Set_has x s) eqn:E.
  - apply Set_has_true in E. split; [auto|]. by intros [->|?].
  - rewrite elem_of_app, list_elem_of_singleton. tauto.
Qed.

Lemma NoDup_Set_add (x : string) (s : StringSet) :
  NoDup s -> NoDup (Set_add x s).
Proof.
  intros H. unfold Set_add. destruct (Set_has x s) eqn:E; [done|].
  apply NoDup_app. split; [done|]. split; [|apply NoDup_singleton].
  intros y Hy ->%list_elem_of_singleton.
  apply Set_has_true in Hy. congruence.
Qed.

Lemma foldl_addIf (p : string -> bool) (l : list string) (s : StringSet) :
  (NoDup s -> NoDup (foldl (addIf p) s l)) /\
  forall v, v ∈ foldl (addIf p) s l <-> v ∈ s \/ (v ∈ l /\ p v = true).
Proof.
  revert s. induction l as [|x l IH]; intros s; cbn [foldl].
  - split; [done|]. intros v. split; [auto|]. by intros [?|[?%elem_of_nil _]].
  - destruct (IH (addIf p s x)) as [Hnd Hin]. split.
    + intros H. apply Hnd. unfold addIf. destruct (p x); [|done].
      by apply NoDup_Set_add.
    + intros v. rewrite Hin. unfold addIf. rewrite elem_of_cons.
      destruct (p x) eqn:P.
      * rewrite elem_of_Set_add. split.
        -- intros [[->|?]|[? ?]]; auto.
        -- intros [?|[[->|?] ?]]; auto.
      * split.
        -- intros [?|[? ?]]; auto.
        -- intros [?|[[->|?] ?]]; auto. congruence.
Qed.

Lemma suggest_addIf (r : Regex) (result : StringSet) (c : Company.t) :
  Controller.suggest r result c = foldl (addIf (test r)) result (fieldValues c).
Proof. reflexivity. Qed.

Lemma suggestionsOf_spec (r : Regex) (docs : Store.t) (s : StringSet) :
  (NoDup s -> NoDup (foldl (Controller.suggest r) s docs)) /\
  forall v, v ∈ foldl (Controller.suggest r) s docs <->
    v ∈ s \/ exists c, c ∈ docs /\ v ∈ fieldValues c /\ test r v = true.
Proof.
  revert s. induction docs as [|d docs IH]; intros s; cbn [foldl].
  - split; [done|]. intros v. split; [auto|].
    by intros [?|(c & ?%elem_of_nil & _)].
  - destruct (IH (Controller.suggest r s d)) as [Hnd Hin].
    rewrite suggest_addIf in *.
    destruct (foldl_addIf (test r) (fieldValues d) s) as [Hnd' Hin']. split.
    + auto.
    + intros v. rewrite Hin, Hin'. split.
      * intros [[?|[? ?]]|(c & ? & ? & ?)]; [auto| |].
        -- right. exists d. split; [by left|done].
        -- right. exists c. split; [by right|done].
      * intros [?|(c & [->|?]%elem_of_cons & ? & ?)]; [auto|auto|].
        right. eauto.
Qed.

Lemma findSuggestions_spec (q : string) (r : Regex) (st : Store.t) :
  RegExp_i q = Some r ->
  Store.findSuggestions q st =
    Some (List.filter (fun c => existsb (test r) (fieldValues c)) st).
Proof.
  intros H. unfold Store.findSuggestions. rewrite H. cbn. f_equal.
  apply filter_eq. intros c. cbn. by rewrite orb_assoc.
Qed.

(** The handler answers with the deduplicated field values that test
    true against the pattern. *)
Lemma searchSuggestion_regex (query : JsObject) (st : Store.t) (q : string) (r : Regex) :
  get query "q" = JStr q ->
  RegExp_i q = Some r ->
  exists vals,
    Controller.searchSuggestion query st = Some (suggestionBody vals) /\
    NoDup vals /\
    forall v, v ∈ vals <->
      exists c, c ∈ st /\ v ∈ fieldValues c /\ test r v = true.
Proof.
  intros Hq Hr. unfold Controller.searchSuggestion.
  rewrite Hq, (findSuggestions_spec q r st Hr), Hr. cbn [mbind option_bind].
  eexists. split; [reflexivity|].
  unfold Controller.suggestionsOf.
  destruct (suggestionsOf_spec r
              (List.filter (fun c => existsb (test r) (fieldValues c)) st) [])
    as [Hnd Hin].
  split; [apply Hnd, NoDup_nil_2|].
  intros v. rewrite Hin. split.
  - intros [?%elem_of_nil|(c & Hc & Hv & Ht)]; [done|].
    apply list_elem_of_In, filter_In in Hc as [Hc _].
    exists c. split; [by apply list_elem_of_In|done].
  - intros (c & Hc & Hv & Ht). right. exists c. split; [|done].
    apply list_elem_of_In, filter_In. split; [by apply list_elem_of_In|].
    apply existsb_exists. exists v. split; [by apply list_elem_of_In|done].
Qed.




(** ** Uniqueness of names and emails *)

Lemma get_createObject (body : JsObject) (k : string) :
  k ∈ Controller.createFields ->
  get (Controller.createObject body) k = get body k.
Proof.
  intros Hk. unfold Controller.createObject, Controller.createFields in *.
  unfold get at 1. cbn [map]. unfold list_to_map. cbn [foldr fst snd].
  repeat (apply elem_of_cons in Hk as [->|Hk]; [by simplify_map_eq|]).
  inversion Hk.
Qed.

Lemma cast_name_email (obj : JsObject) (d : Company.Draft) :
  Company.cast obj = Some d ->
  Company.trimmed (get obj "name") = Some (Company.d_name d) /\
  Company.lowerTrimmed (get obj "email") = Some (Company.d_email d).
Proof.
  unfold Company.cast. intros H.
  repeat match type of H with
  | (?o ≫= _) = Some _ =>
      let E := fresh "E" in destruct o eqn:E; [cbn [mbind option_bind] in H|discriminate H]
  end.
  injection H as <-. done.
Qed.

Lemma create_inserted_inv (env : Env) (obj : JsObject) (st st' : Store.t)
    (doc : Company.t) :
  Store.create env obj st = Some (st', inr doc) ->
  exists d, Company.cast obj = Some d /\
            Company.validate env d = [] /\
            doc = Company.document env d /\
            Store.duplicateKey doc st = None /\
            st' = st ++ [doc].
Proof.
  unfold Store.create. destruct (Company.cast obj) as [d|]; cbn; [|done].
  destruct (Company.validate env d) as [|err errs] eqn:V; [|done].
  destruct (Store.duplicateKey _ st) as [[key value]|] eqn:K; [done|].
  intros [= <- <-]. eauto 10.
Qed.

Lemma duplicateKey_None (doc : Company.t) (st : Store.t) :
  Store.duplicateKey doc st = None <->
  existsb (Store.byId (Company._id doc)) st = false /\
  existsb (fun c => String.eqb (Company.name c) (Company.name doc)) st = false /\
  existsb (fun c => String.eqb (Company.email c) (Company.email doc)) st = false.
Proof.
  unfold Store.duplicateKey.
  destruct (existsb (Store.byId _) st); [split; [done|by intros [? _]]|].
  destruct (existsb _ st); [split; [done|by intros (_ & ? & _)]|].
  destruct (existsb _ st); [split; [done|by intros (_ & _ & ?)]|].
  done.
Qed.

Lemma existsb_eqb_false (f : Company.t -> string) (x : string) (st : Store.t) :
  existsb (fun c => String.eqb (f c) x) st = false <-> x ∉ map f st.
Proof.
  rewrite <- not_true_iff_false, existsb_exists. split.
  - intros H Hin. apply list_elem_of_In, in_map_iff in Hin as (c & <- & Hc).
    apply H. exists c. split; [done|apply String.eqb_refl].
  - intros H (c & Hc & <-%String.eqb_eq). apply H.
    apply list_elem_of_In, in_map. done.
Qed.

Lemma Unique_snoc (st : Store.t) (doc : Company.t) :
  Unique st -> Store.duplicateKey doc st = None -> Unique (st ++ [doc]).
Proof.
  intros [Hn He] (_ & Kn & Ke)%duplicateKey_None.
  apply existsb_eqb_false in Kn, Ke.
  unfold Unique. rewrite !map_app. cbn [map].
  split; apply NoDup_app; (split; [done|]);
    (split; [|apply NoDup_singleton]);
    intros x Hx ->%list_elem_of_singleton; done.
Qed.

Lemma createCompany_preserves_unique (env : Env) (body : JsObject)
    (st st' : Store.t) (out : Outcome) :
  Unique st -> Controller.createCompany env body st = Some (st', out) -> Unique st'.
Proof.
  intros U H. apply createCompany_cases in H.
  destruct H as [| | | | |doc F D I C]; try done.
  apply create_inserted_inv in C as (d & _ & _ & _ & K & _).
  by apply Unique_snoc.
Qed.

Lemma applyUpdate_keeps_keys (env : Env) (u : JsObject) (c c' : Company.t) :
  Store.applyUpdate env u c = Some c' ->
  Company.name c' = Company.name c /\ Company.email c' = Company.email c.
Proof.
  unfold Store.applyUpdate. intros H.
  repeat match type of H with
  | (?o ≫= _) = Some _ =>
      destruct o; [cbn [mbind option_bind] in H|discriminate H]
  end.
  by injection H as <-.
Qed.

Lemma map_replaceById {A : Type} (f : Company.t -> A) (id : string)
    (c c' : Company.t) (st : Store.t) :
  find (Store.byId id) st = Some c -> f c' = f c ->
  map f (Store.replaceById id c' st) = map f st.
Proof.
  intros Hfind Hf. induction st as [|d st IH]; cbn in *; [done|].
  destruct (Store.byId id d); cbn.
  - injection Hfind as ->. by rewrite Hf.
  - f_equal. by apply IH.
Qed.

Lemma findByIdAndUpdate_preserves_unique (env : Env) (id : string) (u : JsObject)
    (st st' : Store.t) (r : Thrown + option Company.t) :
  Unique st -> Store.findByIdAndUpdate env id u st = Some (st', r) -> Unique st'.
Proof.
  intros U. unfold Store.findByIdAndUpdate.
  destruct (Store.validObjectId id); [|by intros [= <- _]].
  destruct (find (Store.byId id) st) as [c|] eqn:F; [|by intros [= <- _]].
  destruct (Store.applyUpdate env u c) as [c'|] eqn:A; cbn; [|done].
  intros [= <- _]. apply applyUpdate_keeps_keys in A as [An Ae].
  unfold Unique.
  by rewrite (map_replaceById _ id c c' st F An), (map_replaceById _ id c c' st F Ae).
Qed.

Lemma elem_of_map_removeById {A : Type} (f : Company.t -> A) (id : string)
    (st : Store.t) (x : A) :
  x ∈ map f (Store.removeById id st) -> x ∈ map f st.
Proof.
  induction st as [|d st IH]; cbn; [done|].
  destruct (Store.byId id d); cbn.
  - by right.
  - intros [->|H]%elem_of_cons; [by left|right; by apply IH].
Qed.

Lemma NoDup_map_removeById {A : Type} (f : Company.t -> A) (id : string)
    (st : Store.t) :
  NoDup (map f st) -> NoDup (map f (Store.removeById id st)).
Proof.
  induction st as [|d st IH]; cbn; [done|].
  intros [Hd Hst]%NoDup_cons. destruct (Store.byId id d); cbn; [done|].
  apply NoDup_cons. split; [|by apply IH].
  intros H. by apply Hd, (elem_of_map_removeById f id).
Qed.

Lemma deleteCompany_preserves_unique (id : string) (st st' : Store.t) (out : Outcome) :
  Unique st -> Controller.deleteCompany id st = (st', out) -> Unique st'.
Proof.
  intros [Un Ue]. unfold Controller.deleteCompany, Store.findByIdAndDelete.
  destruct (Store.validObjectId id); [|by intros [= <- _]].
  destruct (find (Store.byId id) st); intros [= <- _]; [|done].
  split; by apply NoDup_map_removeById.
Qed.

Lemma handle_preserves_unique (env : Env) (req : App.Request)
    (st st' : Store.t) (r : HttpResponse) :
  Unique st -> App.handle env req st = Some (st', r) -> Unique st'.
Proof.
  intros U. unfold App.handle.
  destruct (App.dispatch env req st) as [[st1 o]|] eqn:D; cbn; [|done].
  intros [= <- _]. destruct req as [b|q|q|q|id|id b|id]; cbn in D.
  - by apply (createCompany_preserves_unique env b st st1 o).
  - destruct (Controller.searchSuggestion q st); cbn in D; [|done]. by injection D as <- _.
  - destruct (Controller.searchCompanies q st); cbn in D; [|done]. by injection D as <- _.
  - destruct (Controller.getAllCompanies q st); cbn in D; [|done]. by injection D as <- _.
  - by injection D as <- _.
  - unfold Controller.updateCompany in D.
    destruct (Nat.eqb _ 0); [by injection D as <- _|].
    destruct (Store.findByIdAndUpdate env id _ st) as [[st2 res]|] eqn:E; cbn in D; [|done].
    injection D as <- _. by apply (findByIdAndUpdate_preserves_unique _ _ _ _ _ _ U E).
  - injection D as D. by apply (deleteCompany_preserves_unique id st st1 o).
Qed.

(** Every store the service can reach holds each name and each email
    once. *)
Lemma reachable_unique (st : Store.t) : App.Reachable st -> Unique st.
Proof.
  induction 1 as [|env req st st' r _ IH _ H].
  - split; apply NoDup_nil_2.
  - by apply (handle_preserves_unique env req st st' r).
Qed.

Lemma createCompany_sent (env : Env) (body : JsObject) (st st' : Store.t)
    (r : HttpResponse) :
  Controller.createCompany env body st = Some (st', Sent r) ->
  Controller.fieldErrors body = inr [] /\
  Controller.industryAllowed (get body "industry") = true /\
  exists d, Company.cast (Controller.createObject body) = Some d /\
            Company.validate env d = [] /\
            Store.duplicateKey (Company.document env d) st = None /\
            st' = st ++ [Company.document env d].
Proof.
  intros H. apply createCompany_cases in H.
  remember (Sent r) as o eqn:Eo.
  destruct H as [| | | | |doc F D I C]; try discriminate Eo.
  apply create_inserted_inv in C as (d & Hc & Hv & -> & K & _).
  eauto 10.
Qed.

Lemma document_keys (env1 env2 : Env) (b1 b2 : JsObject) (d1 d2 : Company.Draft) :
  Company.cast (Controller.createObject b1) = Some d1 ->
  Company.cast (Controller.createObject b2) = Some d2 ->
  (get b1 "name" = get b2 "name" ->
   Company.name (Company.document env1 d1) = Company.name (Company.document env2 d2)) /\
  (get b1 "email" = get b2 "email" ->
   Company.email (Company.document env1 d1) = Company.email (Company.document env2 d2)).
Proof.
  intros [N1 E1]%cast_name_email [N2 E2]%cast_name_email.
  rewrite get_createObject in N1, N2, E1, E2 by (by apply (bool_decide_unpack _)).
  split; intros E; cbn.
  - rewrite E, N2 in N1. injection N1 as N1. by rewrite N1.
  - rewrite E, E2 in E1. injection E1 as E1. by rewrite E1.
Qed.

(** Once one of two create requests with equal name or equal email has
    been served, the other, which would have passed on the store before
    it, fails with a conflict-class error and writes nothing. *)
Lemma create_then_conflict (env1 env2 : Env) (b1 b2 : JsObject)
    (st st1 st2 : Store.t) (r1 r2 : HttpResponse) :
  sameNameOrEmail b1 b2 ->
  Controller.createCompany env1 b1 st = Some (st1, Sent r1) ->
  Controller.createCompany env2 b2 st = Some (st2, Sent r2) ->
  exists e, Controller.createCompany env2 b2 st1 = Some (st1, Threw e) /\
            ConflictClass env2 e.
Proof.
  intros Hsame (_ & _ & d1 & C1 & _ & _ & ->)%createCompany_sent
               (F2 & I2 & d2 & C2 & V2 & _ & _)%createCompany_sent.
  unfold Controller.createCompany. rewrite F2.
  destruct (fieldErrors_nil b2 F2) as (n2 & e2 & -> & ->).
  destruct (Store.findOneByNameOrEmail env2 n2 e2 _).
  { eexists. split; [reflexivity|by left]. }
  rewrite I2. cbn [negb]. unfold Store.create. rewrite C2. cbn [mbind option_bind].
  rewrite V2.
  destruct (Store.duplicateKey (Company.document env2 d2)
              (st ++ [Company.document env1 d1])) as [[key value]|] eqn:K.
  { eexists. split; [reflexivity|]. right. eauto. }
  exfalso. apply duplicateKey_None in K as (_ & Kn & Ke).
  rewrite existsb_app in Kn, Ke. cbn in Kn, Ke.
  apply orb_false_iff in Kn as [_ Kn], Ke as [_ Ke].
  rewrite orb_false_r in Kn, Ke. apply String.eqb_neq in Kn, Ke.
  destruct (document_keys env1 env2 b1 b2 d1 d2 C1 C2) as [Hn He].
  destruct Hsame as [E|E]; [by apply Kn, Hn|by apply Ke, He].
Qed.

(** C1, as amended. Each name and each email is stored once in every
    store the service can reach; and of two create requests with equal
    name or equal email, each of which would succeed if it were served
    alone on the current store, the one served first succeeds and the
    other then fails with a conflict-class error (the 400 of the
    duplicate pre-check, or the duplicate-key error of a unique index)
    and writes nothing, in whichever order they are served; the store
    stays unique after either. *)
Theorem names_and_emails_stay_unique
    (env1 env2 : Env) (b1 b2 : JsObject) (st st1 st2 : Store.t)
    (r1 r2 : HttpResponse) :
  App.Reachable st ->
  sameNameOrEmail b1 b2 ->
  Controller.createCompany env1 b1 st = Some (st1, Sent r1) ->
  Controller.createCompany env2 b2 st = Some (st2, Sent r2) ->
  Unique st /\ Unique st1 /\ Unique st2 /\
  (exists e, Controller.createCompany env2 b2 st1 = Some (st1, Threw e) /\
             ConflictClass env2 e) /\
  (exists e, Controller.createCompany env1 b1 st2 = Some (st2, Threw e) /\
             ConflictClass env1 e).
Proof.
  intros R Hsame H1 H2. pose proof (reachable_unique st R) as U.
  split; [done|].
  split; [by apply (createCompany_preserves_unique env1 b1 st st1 (Sent r1))|].
  split; [by apply (createCompany_preserves_unique env2 b2 st st2 (Sent r2))|].
  split.
  - by apply (create_then_conflict env1 env2 b1 b2 st st1 st2 r1 r2).
  - apply (create_then_conflict env2 env1 b2 b1 st st2 st1 r2 r1); [|done|done].
    destruct Hsame; [by left|by right].
Qed.

Lemma names_and_emails_stay_unique_witness :
  exists e,
    Controller.createCompany laterEnv techCorpAgainBody (storeOf techCorpCreated) =
      Some (storeOf techCorpCreated, Threw e) /\
    ConflictClass laterEnv e.
Proof.
  apply (names_and_emails_stay_unique sampleEnv laterEnv techCorpBody techCorpAgainBody
           [] (storeOf techCorpCreated) (storeOf techCorpAgainCreated)
           (responseOf techCorpCreated) (responseOf techCorpAgainCreated)).
  - apply App.reach_empty.
  - left. reflexivity.
  - vm_compute. reflexivity.
  - vm_compute. reflexivity.
Defined.

(** C1, as stated, fails: a second request with the name of the first
    but without an industry is turned down by field validation, before
    the duplicate check, with "Missing fields" and not with a conflict. *)
Lemma duplicate_name_without_industry_is_not_a_conflict : ~ UniquenessAsStated.
Proof.
  intros H.
  specialize (H sampleEnv laterEnv techCorpBody techCorpNoIndustryBody
                [] (storeOf techCorpCreated) (storeOf techCorpCreated)
                (Sent (responseOf techCorpCreated))
                (Threw (Controller.missingFields laterEnv ["Industry is required"]))).
  destruct H as [[_ (e & [= <-] & [C|(k & v & C)])]|[(r & C) _]].
  - left. reflexivity.
  - vm_compute. reflexivity.
  - vm_compute. reflexivity.
  - apply (f_equal Thrown.message) in C. vm_compute in C. discriminate C.
  - discriminate C.
  - discriminate C.
Qed.

(** ** Stored records are well-formed *)

Lemma validate_foundedYear (env : Env) (d : Company.Draft) (y : Z) :
  Company.validate env d = [] -> Company.d_foundedYear d = Some y -> 1800 <= y.
Proof.
  unfold Company.validate. intros H Hy.
  do 3 apply app_eq_nil in H as [_ H].
  apply app_eq_nil in H as [H _].
  unfold Company.pathError in H. rewrite Hy in H. cbn in H.
  destruct (Z.leb_spec 1800 y); [done|discriminate H].
Qed.

Lemma WellFormed_snoc (st : Store.t) (doc : Company.t) :
  WellFormed st -> validRecord doc -> Store.duplicateKey doc st = None ->
  WellFormed (st ++ [doc]).
Proof.
  intros [Hnd Hall] Hdoc (Ki & _ & _)%duplicateKey_None.
  assert (Hid : Company._id doc ∉ map Company._id st).
  { apply existsb_eqb_false. rewrite <- Ki. apply existsb_eq. intros c.
    unfold Store.byId. done. }
  split.
  - rewrite map_app. cbn [map]. apply NoDup_app. split; [done|].
    split; [|apply NoDup_singleton].
    by intros x Hx ->%list_elem_of_singleton.
  - apply Forall_app. split; [done|]. by apply Forall_singleton.
Qed.

Lemma createCompany_preserves_wellformed (env : Env) (body : JsObject)
    (st st' : Store.t) (out : Outcome) :
  Store.validObjectId (newObjectId env) = true ->
  WellFormed st -> Controller.createCompany env body st = Some (st', out) ->
  WellFormed st'.
Proof.
  intros Hid W H. apply createCompany_cases in H.
  destruct H as [| | | | |doc F D I C]; try done.
  apply create_inserted_inv in C as (d & _ & V & -> & K & _).
  apply WellFormed_snoc; [done| |done].
  split; [done|]. intros y Hy. by apply (validate_foundedYear env d).
Qed.

Lemma applyUpdate_keeps_record (env : Env) (u : JsObject) (c c' : Company.t) :
  Store.applyUpdate env u c = Some c' ->
  Company._id c' = Company._id c /\
  Company.foundedYear c' = Company.foundedYear c.
Proof.
  unfold Store.applyUpdate. intros H.
  repeat match type of H with
  | (?o ≫= _) = Some _ =>
      destruct o; [cbn [mbind option_bind] in H|discriminate H]
  end.
  by injection H as <-.
Qed.

Lemma Forall_replaceById (P : Company.t -> Prop) (id : string) (c' : Company.t)
    (st : Store.t) :
  Forall P st -> P c' -> Forall P (Store.replaceById id c' st).
Proof.
  intros H Hc'. induction H as [|d st Hd Hst IH]; cbn; [done|].
  destruct (Store.byId id d); by constructor.
Qed.

Lemma find_elem_of (p : Company.t -> bool) (st : Store.t) (c : Company.t) :
  find p st = Some c -> c ∈ st.
Proof. intros [H _]%find_some. by apply list_elem_of_In. Qed.

Lemma findByIdAndUpdate_preserves_wellformed (env : Env) (id : string)
    (u : JsObject) (st st' : Store.t) (r : Thrown + option Company.t) :
  WellFormed st -> Store.findByIdAndUpdate env id u st = Some (st', r) ->
  WellFormed st'.
Proof.
  intros [Hnd Hall]. unfold Store.findByIdAndUpdate.
  destruct (Store.validObjectId id); [|by intros [= <- _]].
  destruct (find (Store.byId id) st) as [c|] eqn:F; [|by intros [= <- _]].
  destruct (Store.applyUpdate env u c) as [c'|] eqn:A; cbn; [|done].
  intros [= <- _]. apply applyUpdate_keeps_record in A as [Ai Ay].
  split.
  - by rewrite (map_replaceById _ id c c' st F Ai).
  - apply Forall_replaceById; [done|].
    apply find_elem_of in F. rewrite Forall_forall in Hall.
    destruct (Hall c F) as [Hv Hy]. split; [by rewrite Ai|by rewrite Ay].
Qed.

Lemma Forall_removeById (P : Company.t -> Prop) (id : string) (st : Store.t) :
  Forall P st -> Forall P (Store.removeById id st).
Proof.
  intros H. induction H as [|d st Hd Hst IH]; cbn; [done|].
  destruct (Store.byId id d); [done|by constructor].
Qed.

Lemma deleteCompany_preserves_wellformed (id : string) (st st' : Store.t)
    (out : Outcome) :
  WellFormed st -> Controller.deleteCompany id st = (st', out) -> WellFormed st'.
Proof.
  intros [Hnd Hall]. unfold Controller.deleteCompany, Store.findByIdAndDelete.
  destruct (Store.validObjectId id); [|by intros [= <- _]].
  destruct (find (Store.byId id) st); intros [= <- _]; [|done].
  split; [by apply NoDup_map_removeById|by apply Forall_removeById].
Qed.

Lemma handle_preserves_wellformed (env : Env) (req : App.Request)
    (st st' : Store.t) (r : HttpResponse) :
  Store.validObjectId (newObjectId env) = true ->
  WellFormed st -> App.handle env req st = Some (st', r) -> WellFormed st'.
Proof.
  intros Hid W. unfold App.handle.
  destruct (App.dispatch env req st) as [[st1 o]|] eqn:D; cbn; [|done].
  intros [= <- _]. destruct req as [b|q|q|q|id|id b|id]; cbn in D.
  - by apply (createCompany_preserves_wellformed env b st st1 o).
  - destruct (Controller.searchSuggestion q st); cbn in D; [|done]. by injection D as <- _.
  - destruct (Controller.searchCompanies q st); cbn in D; [|done]. by injection D as <- _.
  - destruct (Controller.getAllCompanies q st); cbn in D; [|done]. by injection D as <- _.
  - by injection D as <- _.
  - unfold Controller.updateCompany in D.
    destruct (Nat.eqb _ 0); [by injection D as <- _|].
    destruct (Store.findByIdAndUpdate env id _ st) as [[st2 res]|] eqn:E; cbn in D; [|done].
    injection D as <- _. by apply (findByIdAndUpdate_preserves_wellformed _ _ _ _ _ _ W E).
  - injection D as D. by apply (deleteCompany_preserves_wellformed id st st1 o).
Qed.

Lemma reachable_wellformed (st : Store.t) : App.Reachable st -> WellFormed st.
Proof.
  induction 1 as [|env req st st' r _ IH Hid H].
  - split; [apply NoDup_nil_2|constructor].
  - by apply (handle_preserves_wellformed env req st st' r).
Qed.



(** ** The scenario of the specification

    Create Tech Corp: 201; create the same name with another email: 400
    "Already existing company"; get the first by its identifier: 200 with
    [companyAge] 0; delete it: 200; get it again: 404. *)
Example specification_scenario :
  let st1 := storeOf techCorpCreated in
  let id := newObjectId sampleEnv in
  status (responseOf techCorpCreated) = 201 /\
  (exists r, App.handle laterEnv (App.PostCompany techCorpAgainBody) st1 = Some (st1, r) /\
             status r = 400 /\
             member (body r) "message" = JStr "Already existing company") /\
  (exists r, App.handle laterEnv (App.GetCompany id) st1 = Some (st1, r) /\
             status r = 200 /\
             member (body r) "companyAge" = JNum 0) /\
  (exists r, App.handle laterEnv (App.DeleteCompany id) st1 = Some ([], r) /\
             status r = 200) /\
  (exists r, App.handle laterEnv (App.GetCompany id) [] = Some ([], r) /\
             status r = 404).
Proof.
  cbv zeta. split; [reflexivity|].
  repeat split; eexists; (split; [by vm_compute|]); split || idtac; reflexivity.
Qed.

(** * Further properties of the code *)

(** ** Trimming and case folding *)












(** ** What a served request does to the store *)

Lemma createCompany_threw (env : Env) (body : JsObject) (st st' : Store.t) (e : Thrown) :
  Controller.createCompany env body st = Some (st', Threw e) -> st' = st.
Proof.
  intros H. apply createCompany_cases in H.
  remember (Threw e) as o eqn:Eo.
  destruct H; done.
Qed.

(** A served request leaves the store as it was, or it is a create
    answered 201 that appended a validated document, an update answered
    200 that replaced the record of that identifier, or a delete answered
    200 that removed it. *)
Lemma handle_effect (env : Env) (req : App.Request) (st st' : Store.t)
    (r : HttpResponse) :
  App.handle env req st = Some (st', r) ->
  st' = st \/
  (exists body d,
     req = App.PostCompany body /\
     Company.cast (Controller.createObject body) = Some d /\
     Company.validate env d = [] /\
     Store.duplicateKey (Company.document env d) st = None /\
     st' = st ++ [Company.document env d] /\
     status r = 201) \/
  (exists id body c c',
     req = App.PatchCompany id body /\
     find (Store.byId id) st = Some c /\
     Store.applyUpdate env (Controller.updateData body) c = Some c' /\
     st' = Store.replaceById id c' st /\
     r = {| status := 200; body := JObj (Company.toObject env c') |}) \/
  (exists id c,
     req = App.DeleteCompany id /\
     find (Store.byId id) st = Some c /\
     st' = Store.removeById id st /\
     status r = 200).
Proof.
  unfold App.handle.
  destruct (App.dispatch env req st) as [[st1 o]|] eqn:D; cbn [mbind option_bind]; [|done].
  intros [= <- <-]. destruct req as [b|q|q|q|id|id b|id]; cbn in D.
  - destruct o as [r|e].
    + apply createCompany_cases in D.
      remember (Sent r) as o eqn:Eo.
      destruct D as [| | | | |doc F Dn I C]; try discriminate Eo.
      apply create_inserted_inv in C as (d & Hc & Hv & -> & K & _).
      right; left. exists b, d.
      unfold Controller.created, Controller.send in Eo. injection Eo as <-.
      split; [reflexivity|]. split; [exact Hc|]. split; [exact Hv|].
      split; [exact K|]. split; reflexivity.
    + left. by apply createCompany_threw in D.
  - destruct (Controller.searchSuggestion q st); cbn in D; [|done].
    left. by injection D as <- _.
  - destruct (Controller.searchCompanies q st); cbn in D; [|done].
    left. by injection D as <- _.
  - destruct (Controller.getAllCompanies q st); cbn in D; [|done].
    left. by injection D as <- _.
  - left. by injection D as <- _.
  - unfold Controller.updateCompany in D.
    destruct (Nat.eqb _ 0); [left; by injection D as <- _|].
    unfold Store.findByIdAndUpdate in D.
    destruct (Store.validObjectId id); cbn [mbind option_bind] in D;
      [|left; by injection D as <- _].
    destruct (find (Store.byId id) st) as [c|] eqn:F; cbn [mbind option_bind] in D;
      [|left; by injection D as <- _].
    destruct (Store.applyUpdate env _ c) as [c'|] eqn:A; cbn [mbind option_bind] in D;
      [|done].
    injection D as <- <-. cbn [App.respond Controller.updated Controller.send].
    right; right; left. exists id, b, c, c'.
    split; [reflexivity|]. split; [exact F|]. split; [exact A|].
    split; reflexivity.
  - unfold Controller.deleteCompany, Store.findByIdAndDelete in D.
    destruct (Store.validObjectId id); cbn in D; [|left; by injection D as <- _].
    destruct (find (Store.byId id) st) as [c|] eqn:F; cbn in D;
      [|left; by injection D as <- _].
    injection D as <- <-. cbn [App.respond Controller.send].
    right; right; right. exists id, c.
    split; [reflexivity|]. split; [exact F|]. split; reflexivity.
Qed.

(** X1. A request answered with a status of 400 or above leaves the store
    exactly as it was: a create, an update or a delete that fails writes
    nothing. *)
Theorem failed_requests_leave_the_store_unchanged
    (env : Env) (req : App.Request) (st st' : Store.t) (r : HttpResponse) :
  App.handle env req st = Some (st', r) ->
  400 <= status r ->
  st' = st.
Proof.
  intros H Hs. apply handle_effect in H as [H|[H|[H|H]]]; [done| | |].
  - destruct H as (b & d & _ & _ & _ & _ & _ & E). lia.
  - destruct H as (id & b & c & c' & _ & _ & _ & _ & ->). cbn in Hs. lia.
  - destruct H as (id & c & _ & _ & _ & E). lia.
Qed.

Lemma failed_requests_leave_the_store_unchanged_witness :
  storeOf techCorpCreated = storeOf techCorpCreated.
Proof.
  apply (failed_requests_leave_the_store_unchanged laterEnv
           (App.PostCompany techCorpAgainBody) (storeOf techCorpCreated)
           (storeOf techCorpCreated)
           {| status := 400;
              body := JObj [("success", JBool false);
                            ("statusCode", JNum 400);
                            ("message", JStr "Already existing company");
                            ("timestamp", JStr (nowISO laterEnv));
                            ("path", JStr "/")] |}).
  - vm_compute. reflexivity.
  - simpl. lia.
Defined.

(** ** The schema's validators *)

Lemma firstFailure_None (checks : list (bool * string)) :
  Company.firstFailure checks = None <-> Forall (fun p => p.1 = true) checks.
Proof.
  induction checks as [|[ok msg] rest IH]; cbn.
  - split; [constructor|done].
  - destruct ok.
    + rewrite IH. split; [by constructor|by inversion 1].
    + split; [done|]. inversion 1; simplify_eq/=.
Qed.

Lemma pathError_nil (path : string) (checks : list (bool * string)) :
  Company.pathError path checks = [] <-> Forall (fun p => p.1 = true) checks.
Proof.
  rewrite <- firstFailure_None. unfold Company.pathError.
  by destruct (Company.firstFailure checks).
Qed.

Lemma noString_false (o : option string) :
  negb (Company.noString o) = true <-> exists s, o = Some s /\ s <> "".
Proof.
  destruct o as [s|]; cbn.
  - rewrite negb_true_iff, String.eqb_neq. split; [eauto|]. by intros (? & [= <-] & ?).
  - split; [done|]. by intros (? & ? & _).
Qed.

Lemma onString_true (o : option string) (f : string -> bool) :
  Company.onString o f = true <-> forall s, o = Some s -> f s = true.
Proof.
  destruct o as [s|]; cbn; [|done].
  split; [by intros ? ? [= <-]|eauto].
Qed.

Lemma onNumber_true (o : option Z) (f : Z -> bool) :
  Company.onNumber o f = true <-> forall n, o = Some n -> f n = true.
Proof.
  destruct o as [n|]; cbn; [|done].
  split; [by intros ? ? [= <-]|eauto].
Qed.

Lemma Forall_checks_1 (b : bool) (m : string) :
  Forall (fun p : bool * string => p.1 = true) [(b, m)] <-> b = true.
Proof. split; [by inversion 1|intros ->; by repeat constructor]. Qed.

Lemma Forall_checks_2 (b1 b2 : bool) (m1 m2 : string) :
  Forall (fun p : bool * string => p.1 = true) [(b1, m1); (b2, m2)] <->
  b1 = true /\ b2 = true.
Proof.
  split.
  - intros H. inversion H as [|? ? H1 H2]; subst. inversion H2; subst. done.
  - intros [-> ->]. by repeat constructor.
Qed.

Lemma Forall_checks_3 (b1 b2 b3 : bool) (m1 m2 m3 : string) :
  Forall (fun p : bool * string => p.1 = true) [(b1, m1); (b2, m2); (b3, m3)] <->
  b1 = true /\ b2 = true /\ b3 = true.
Proof.
  split.
  - intros H. inversion H as [|? ? H1 H2]; subst. inversion H2 as [|? ? H3 H4]; subst.
    inversion H4; subst. done.
  - intros (-> & -> & ->). by repeat constructor.
Qed.

Lemma required_iff (o : option string) (f : string -> bool) (P : string -> Prop) :
  (forall s, f s = true <-> P s) ->
  (exists s, o = Some s /\ s <> "") /\ (forall s, o = Some s -> f s = true) <->
  requiredText o P.
Proof.
  intros H. unfold requiredText. split.
  - intros [(s & E & Hs) Hf]. exists s. split; [done|]. split; [done|].
    by apply H, Hf.
  - intros (s & E & Hs & HP). split; [eauto|].
    intros s' E'. rewrite E in E'. injection E' as <-. by apply H.
Qed.

Lemma whenSet_iff {A : Type} (o : option A) (f : A -> bool) (P : A -> Prop) :
  (forall a, f a = true <-> P a) ->
  (forall a, o = Some a -> f a = true) <-> whenSet o P.
Proof.
  intros H. unfold whenSet. split; intros Hf a E; by apply H, Hf.
Qed.

Lemma empty_or_iff (s : string) (b : bool) :
  String.eqb s "" || b = true <-> s = "" \/ b = true.
Proof. by rewrite orb_true_iff, String.eqb_eq. Qed.

Lemma and_iff (A B C D : Prop) : (A <-> C) -> (B <-> D) -> (A /\ B <-> C /\ D).
Proof. tauto. Qed.

Lemma validate_nil_iff (env : Env) (d : Company.Draft) :
  Company.validate env d = [] <-> acceptable env d.
Proof.
  unfold Company.validate, acceptable.
  rewrite !app_nil, !pathError_nil.
  rewrite !Forall_checks_3, !Forall_checks_2, !Forall_checks_1.
  rewrite !noString_false, !onString_true, !onNumber_true.
  apply and_iff; [apply required_iff; intros s; apply Z.leb_le|].
  apply and_iff; [apply whenSet_iff; intros s; apply Z.leb_le|].
  apply and_iff; [apply required_iff; intros s; apply bool_decide_eq_true|].
  apply and_iff.
  { unfold whenSet. split.
    - intros (H1 & H2 & H3) y E.
      specialize (H1 y E). specialize (H2 y E). specialize (H3 y E).
      apply Z.leb_le in H1, H2.
      apply orb_true_iff in H3 as [H3|H3]; [apply Z.eqb_eq in H3; lia|].
      apply andb_true_iff in H3 as [_ H3]. apply Z.leb_le in H3. lia.
    - intros H. repeat split; intros y E; destruct (H y E) as [[? ?] ?].
      + by apply Z.leb_le.
      + by apply Z.leb_le.
      + apply orb_true_iff. right. apply andb_true_iff. split; by apply Z.leb_le. }
  apply and_iff.
  { rewrite andb_true_iff, negb_true_iff, Nat.eqb_neq, forallb_forall, Forall_forall.
    apply and_iff.
    - by destruct (Company.d_location d).
    - split; intros H loc Hin.
      + apply Z.leb_le, H. by apply list_elem_of_In.
      + apply Z.leb_le, H. by apply list_elem_of_In. }
  apply and_iff; [apply whenSet_iff; intros s; apply empty_or_iff|].
  apply and_iff; [by apply required_iff|].
  apply and_iff; [apply whenSet_iff; intros s; apply empty_or_iff|].
  apply and_iff.
  { unfold whenSet. split.
    - intros [H1 H2] n E. specialize (H1 n E). specialize (H2 n E).
      apply Z.leb_le in H1, H2. lia.
    - intros H. split; intros n E; apply Z.leb_le; specialize (H n E); lia. }
  apply and_iff; [apply whenSet_iff; intros s; apply Z.leb_le|].
  apply whenSet_iff. intros n. apply Z.leb_le.
Qed.



(** ** Stored records satisfy the schema *)

Lemma Matches_word (l w : list ascii) : Matches (word l) w -> w = l.
Proof.
  revert w. induction l as [|c l IH]; intros w; cbn [word].
  - apply Matches_eps_inv.
  - intros (w1 & w2 & -> & (a & -> & Ha)%Matches_char_inv & H2%IH)%Matches_cat_inv.
    cbn in Ha. apply Ascii.eqb_eq in Ha. by subst.
Qed.

Lemma urlRegex_startsWith_http (s : string) :
  testPrefix Company.urlRegex s = true -> startsWith s "http" = true.
Proof.
  unfold testPrefix. rewrite matches_Matches.
  intros (w1 & w2 & E & H1 & _)%Matches_cat_inv.
  unfold Company.urlRegex in H1.
  apply Matches_cat_inv in H1 as (a & b & -> & Ha%Matches_word & _).
  unfold startsWith. apply startsWithL_spec.
  exists (b ++ w2). by rewrite E, Ha, <- app_assoc.
Qed.

Lemma validate_acceptable (env : Env) (d : Company.Draft) :
  Company.validate env d = [] -> acceptable env d.
Proof. apply validate_nil_iff. Qed.

Lemma preSaveWebsite_url (o : option string) :
  (forall w, o = Some w -> w = "" \/ testPrefix Company.urlRegex w = true) ->
  Company.preSaveWebsite o = o.
Proof.
  intros Hw. unfold Company.preSaveWebsite.
  destruct o as [w|]; [|done].
  destruct (Hw w eq_refl) as [->|Hu]; [done|].
  by rewrite (urlRegex_startsWith_http w Hu), andb_false_r.
Qed.

(** X3. The pre-save hook, which puts [https://] before a website that does
    not start with [http], never changes a document that is saved:
    validation runs before it and lets through only a website that is
    absent, empty or starts with [http://] or [https://]. *)
Theorem preSaveWebsite_keeps_a_validated_website (env : Env) (d : Company.Draft) :
  Company.validate env d = [] ->
  Company.preSaveWebsite (Company.d_website d) = Company.d_website d.
Proof.
  intros (_ & _ & _ & _ & _ & Hw & _)%validate_acceptable.
  by apply preSaveWebsite_url.
Qed.

Lemma preSaveWebsite_keeps_a_validated_website_witness :
  Company.preSaveWebsite (Some "https://globex.com") = Some "https://globex.com".
Proof.
  apply (preSaveWebsite_keeps_a_validated_website sampleEnv globexDraft).
  vm_compute. reflexivity.
Defined.




Lemma applyUpdate_fixedPaths (env : Env) (u : JsObject) (c c' : Company.t) :
  Store.applyUpdate env u c = Some c' -> fixedPaths c' = fixedPaths c.
Proof.
  unfold Store.applyUpdate. intros H.
  repeat match type of H with
  | (?o ≫= _) = Some _ =>
      destruct o; [cbn [mbind option_bind] in H|discriminate H]
  end.
  by injection H as <-.
Qed.




Lemma initechStore_reachable : App.Reachable initechStore.
Proof.
  apply (App.reach_step sampleEnv (App.PostCompany initechBody) [] initechStore
           (App.respond sampleEnv (App.PostCompany initechBody)
              (Sent (responseOf initechCreated)))).
  - apply App.reach_empty.
  - reflexivity.
  - vm_compute. reflexivity.
Defined.


(** ** Updates, deletions and the record they name *)

Lemma find_replaceById (id : string) (c c' : Company.t) (st : Store.t) :
  find (Store.byId id) st = Some c ->
  Company._id c' = Company._id c ->
  find (Store.byId id) (Store.replaceById id c' st) = Some c'.
Proof.
  intros F E. induction st as [|d st IH]; [done|]. cbn in F |- *.
  destruct (Store.byId id d) eqn:B.
  - injection F as ->. cbn. unfold Store.byId in *. by rewrite E, B.
  - cbn. rewrite B. by apply IH.
Qed.


Lemma updateCompany_effect (env : Env) (id : string) (updates : JsObject)
    (st st' : Store.t) (out : Outcome) :
  Controller.updateCompany env id updates st = Some (st', out) ->
  (st' = st /\ exists s b, out = Controller.send s b /\ 400 <= s) \/
  exists c c',
    Store.validObjectId id = true /\
    find (Store.byId id) st = Some c /\
    Store.applyUpdate env (Controller.updateData updates) c = Some c' /\
    st' = Store.replaceById id c' st /\
    out = Controller.send 200 (JObj (Company.toObject env c')).
Proof.
  unfold Controller.updateCompany.
  destruct (Nat.eqb _ 0).
  { intros [= <- <-]. left. split; [done|]. eexists _, _. split; [done|]. lia. }
  unfold Store.findByIdAndUpdate.
  destruct (Store.validObjectId id); cbn [mbind option_bind].
  2:{ intros [= <- <-]. left. split; [done|]. eexists _, _. split; [done|]. lia. }
  destruct (find (Store.byId id) st) as [c|] eqn:F; cbn [mbind option_bind].
  2:{ intros [= <- <-]. left. split; [done|]. eexists _, _. split; [done|]. lia. }
  destruct (Store.applyUpdate env _ c) as [c'|] eqn:A; cbn [mbind option_bind]; [|done].
  intros [= <- <-]. right. by exists c, c'.
Qed.



(** X6. An update answered 200 is read back by get-by-id: the record
    found under that identifier afterwards is the one the update
    returned, its update time is the time of the update, and get-by-id
    answers 200 with the object of that record, [companyAge] set from
    [getCompanyAge]. *)
Theorem updateCompany_then_getCompanyById
    (env env' : Env) (id : string) (updates : JsObject) (st st' : Store.t)
    (c : Company.t) :
  Controller.updateCompany env id updates st =
    Some (st', Controller.send 200 (JObj (Company.toObject env c))) ->
  exists c' : Company.t,
    Company.toObject env c' = Company.toObject env c /\
    find (Store.byId id) st' = Some c' /\
    Company.updatedAt c' = now env /\
    Controller.getCompanyById env' id st' = details env' c'.
Proof.
  intros [(_ & s & b & E & Hs)|(c0 & c' & V & F & A & -> & E)]%updateCompany_effect.
  { injection E as <- _. lia. }
  exists c'.
  assert (E' : Company.toObject env c = Company.toObject env c').
  { exact (f_equal (fun o => match o with
                             | Sent {| body := JObj l |} => l
                             | _ => []
                             end) E). }
  assert (Hid : Company._id c' = Company._id c0).
  { pose proof (applyUpdate_fixedPaths env _ _ _ A) as Hf. by injection Hf. }
  pose proof (find_replaceById id c0 c' st F Hid) as F'.
  split; [symmetry; exact E'|]. split; [exact F'|]. split.
  - unfold Store.applyUpdate in A.
    repeat match type of A with
    | (?o ≫= _) = Some _ =>
        destruct o; [cbn [mbind option_bind] in A|discriminate A]
    end.
    by injection A as <-.
  - unfold Controller.getCompanyById, Store.findById. by rewrite V, F'.
Qed.

Lemma updateCompany_then_getCompanyById_witness :
  exists c' : Company.t,
    Company.toObject sampleEnv c' =
      Company.toObject sampleEnv (withLocations sampleEnv ["Oslo"] acmeCorp) /\
    find (Store.byId "65a000000000000000000001")
      (storeOf (Controller.updateCompany sampleEnv "65a000000000000000000001"
                  (locationsBody ["Oslo"]) sampleStore)) = Some c' /\
    Company.updatedAt c' = now sampleEnv /\
    Controller.getCompanyById laterEnv "65a000000000000000000001"
      (storeOf (Controller.updateCompany sampleEnv "65a000000000000000000001"
                  (locationsBody ["Oslo"]) sampleStore)) = details laterEnv c'.
Proof.
  apply (updateCompany_then_getCompanyById sampleEnv laterEnv
           "65a000000000000000000001" (locationsBody ["Oslo"]) sampleStore).
  vm_compute. reflexivity.
Defined.

Lemma castStrings_strings (locs : list string) :
  Company.castStrings (map JStr locs) = Some locs.
Proof. induction locs as [|l locs IH]; cbn; [done|]. by rewrite IH. Qed.

Lemma updateData_singleton (k : string) (v : JsVal) :
  k ∈ Controller.allowedFields -> defined v = true ->
  Controller.updateData {[ k := v ]} = {[ k := v ]}.
Proof.
  intros Hk Hv. apply map_eq. intros j. rewrite updateData_lookup. unfold get.
  destruct (decide (j = k)) as [->|Hne].
  - rewrite lookup_singleton_eq. cbn. by rewrite Hv, bool_decide_eq_true_2.
  - rewrite lookup_singleton_ne by done. cbn. by rewrite andb_false_r.
Qed.

(** X7. An update stores the locations it is given as they are: the
    validators of the schema run on creation only, and the update handler
    has no check of its own, so a list that creation would refuse (an
    empty one, or one with a location above 200 characters) replaces the
    locations of any stored record. *)
Theorem updateCompany_stores_locations_unvalidated
    (env : Env) (st : Store.t) (c : Company.t) (locs : list string) :
  App.Reachable st ->
  c ∈ st ->
  Controller.updateCompany env (Company._id c) (locationsBody locs) st =
    Some (Store.replaceById (Company._id c) (withLocations env locs c) st,
          Controller.send 200 (JObj (Company.toObject env (withLocations env locs c)))) /\
  (withLocations env locs c ∈ Store.replaceById (Company._id c) (withLocations env locs c) st) /\
  (forall d : Company.Draft,
     Company.d_location d = locs ->
     Company.validate env d = [] ->
     locs <> [] /\ Forall (fun loc => Company.len loc <= 200) locs).
Proof.
  intros [Hnd Hall]%reachable_wellformed Hin.
  rewrite Forall_forall in Hall. destruct (Hall c Hin) as [Hid _].
  pose proof (find_byId_unique st c Hnd Hin) as F.
  split; [|split].
  - unfold Controller.updateCompany, locationsBody.
    rewrite updateData_singleton by (done || by apply (bool_decide_unpack _)).
    rewrite map_size_singleton. cbn [Nat.eqb].
    unfold Store.findByIdAndUpdate. rewrite Hid, F.
    unfold Store.applyUpdate.
    rewrite lookup_singleton_eq, !lookup_singleton_ne by done.
    cbn [Store.pathUpdate Store.castLocations mbind option_bind].
    rewrite castStrings_strings. reflexivity.
  - apply (find_elem_of (Store.byId (Company._id c))).
    by apply (find_replaceById _ c).
  - intros d <- (_ & _ & _ & _ & Hl & _)%validate_acceptable. exact Hl.
Qed.

Lemma updateCompany_stores_locations_unvalidated_witness :
  Controller.updateCompany laterEnv (Company._id initech) (locationsBody []) initechStore =
    Some (Store.replaceById (Company._id initech) (withLocations laterEnv [] initech)
            initechStore,
          Controller.send 200
            (JObj (Company.toObject laterEnv (withLocations laterEnv [] initech)))) /\
  (withLocations laterEnv [] initech ∈
     Store.replaceById (Company._id initech) (withLocations laterEnv [] initech)
       initechStore) /\
  (forall d : Company.Draft,
     Company.d_location d = [] ->
     Company.validate laterEnv d = [] ->
     @nil string <> [] /\ Forall (fun loc => Company.len loc <= 200) (@nil string)).
Proof.
  apply (updateCompany_stores_locations_unvalidated laterEnv initechStore initech []).
  - apply initechStore_reachable.
  - apply elem_of_cons. left. reflexivity.
Defined.

Lemma elem_of_removeById (id : string) (st : Store.t) (d : Company.t) :
  NoDup (map Company._id st) ->
  d ∈ Store.removeById id st <-> d ∈ st /\ Company._id d <> id.
Proof.
  induction st as [|a st IH]; cbn [Store.removeById map].
  - intros _. split; [by intros ?%elem_of_nil|by intros [?%elem_of_nil _]].
  - intros [Ha Hnd]%NoDup_cons. destruct (Store.byId id a) eqn:B.
    + apply byId_true in B. subst id. rewrite elem_of_cons. split.
      * intros Hd. split; [by right|]. intros E. apply Ha. rewrite <- E.
        by apply list_elem_of_fmap_2.
      * intros [[->|Hd] Hne]; done.
    + assert (Company._id a <> id) as Hne.
      { intros E. apply byId_true in E. by rewrite E in B. }
      rewrite !elem_of_cons, (IH Hnd). split.
      * intros [->|[Hd Hd']]; [by split; [left|]|by split; [right|]].
      * intros [[->|Hd] Hd']; [by left|by right].
Qed.

Lemma find_byId_None (id : string) (st : Store.t) :
  find (Store.byId id) st = None <-> id ∉ map Company._id st.
Proof.
  induction st as [|a st IH]; cbn [find map].
  - split; [intros _; apply not_elem_of_nil|done].
  - rewrite not_elem_of_cons. destruct (Store.byId id a) eqn:B.
    + apply byId_true in B. split; [done|]. by intros [? _].
    + rewrite IH. split; [|by intros [_ ?]]. intros H. split; [|done].
      intros E. symmetry in E. apply byId_true in E. by rewrite E in B.
Qed.

(** X8. Deleting a stored record answers 200 and removes that record
    and no other; afterwards its identifier names nothing: get-by-id
    answers 404, and so does a second delete, which leaves the store as
    it is. *)
Theorem deleteCompany_removes_exactly_the_record
    (env : Env) (st : Store.t) (c : Company.t) :
  App.Reachable st ->
  c ∈ st ->
  exists st' : Store.t,
    Controller.deleteCompany (Company._id c) st =
      (st', Controller.send 200 (Controller.messageBody "Company deleted successfully")) /\
    (forall d : Company.t, d ∈ st' <-> d ∈ st /\ Company._id d <> Company._id c) /\
    Controller.getCompanyById env (Company._id c) st' = notFound /\
    Controller.deleteCompany (Company._id c) st' = (st', notFound).
Proof.
  intros [Hnd Hall]%reachable_wellformed Hin.
  rewrite Forall_forall in Hall. destruct (Hall c Hin) as [Hid _].
  pose proof (find_byId_unique st c Hnd Hin) as F.
  exists (Store.removeById (Company._id c) st).
  assert (Hrm : forall d, d ∈ Store.removeById (Company._id c) st <->
                          d ∈ st /\ Company._id d <> Company._id c).
  { intros d. by apply elem_of_removeById. }
  assert (N : find (Store.byId (Company._id c)) (Store.removeById (Company._id c) st) = None).
  { apply find_byId_None. intros (d & E & Hd%Hrm)%list_elem_of_fmap.
    destruct Hd as [_ Hd]. by apply Hd. }
  split; [|split; [done|split]].
  - unfold Controller.deleteCompany, Store.findByIdAndDelete. by rewrite Hid, F.
  - unfold Controller.getCompanyById, Store.findById. by rewrite Hid, N.
  - unfold Controller.deleteCompany, Store.findByIdAndDelete. by rewrite Hid, N.
Qed.

Lemma deleteCompany_removes_exactly_the_record_witness :
  exists st' : Store.t,
    Controller.deleteCompany (Company._id initech) initechStore =
      (st', Controller.send 200 (Controller.messageBody "Company deleted successfully")) /\
    (forall d : Company.t,
       d ∈ st' <-> d ∈ initechStore /\ Company._id d <> Company._id initech) /\
    Controller.getCompanyById laterEnv (Company._id initech) st' = notFound /\
    Controller.deleteCompany (Company._id initech) st' = (st', notFound).
Proof.
  apply (deleteCompany_removes_exactly_the_record laterEnv initechStore initech).
  - apply initechStore_reachable.
  - apply elem_of_cons. left. reflexivity.
Defined.



(** ** What a create stores and answers *)



(** X11. A name or an email of the body that is neither text nor absent (a
    number, a Boolean, a list, an object) is not reported as a missing
    field: calling [trim] on it throws a TypeError, which the error
    middleware answers 500, and outside development mode with the fixed
    text that hides the cause.  Nothing is written. *)
Theorem createCompany_answers_500_to_a_name_that_is_not_text
    (env : Env) (reqBody : JsObject) (st : Store.t) :
  textOrAbsent (get reqBody "name") && textOrAbsent (get reqBody "email") = false ->
  exists r : HttpResponse,
    App.handle env (App.PostCompany reqBody) st = Some (st, r) /\
    status r = 500 /\
    member (body r) "success" = JBool false /\
    member (body r) "statusCode" = JNum 500 /\
    (NODE_ENV env <> "development" ->
     member (body r) "message" =
       JStr "Something went wrong on our end. Please try again later.").
Proof.
  intros H. unfold App.handle. cbn [App.dispatch].
  assert (exists var, Controller.createCompany env reqBody st =
            Some (st, Threw (ThrowTypeError (var +:+ "?.trim is not a function"))) /\
          (var = "name" \/ var = "email")) as (var & -> & Hvar).
  { unfold Controller.createCompany, Controller.fieldErrors.
    destruct (get reqBody "name") as [| | | |n| | |] eqn:En; cbn in H |- *;
      try (exists "name"; split; [reflexivity|by left]);
      destruct (get reqBody "email") as [| | | |e| | |] eqn:Ee; cbn in H |- *;
      try discriminate H;
      exists "email"; split; try reflexivity; by right. }
  cbn [mbind option_bind].
  eexists. split; [reflexivity|].
  unfold App.respond, ErrorHandler.corsErrorHandler.
  replace (includes (Thrown.message (ThrowTypeError (var +:+ "?.trim is not a function")))
             "CORS") with false
    by (by destruct Hvar as [-> | ->]; vm_compute).
  unfold ErrorHandler.globalErrorHandler.
  replace (includes (Thrown.message (ThrowTypeError (var +:+ "?.trim is not a function")))
             "rate limit") with false
    by (by destruct Hvar as [-> | ->]; vm_compute).
  destruct (String.eqb (NODE_ENV env) "development") eqn:Hd.
  - apply String.eqb_eq in Hd. repeat split; by vm_compute.
  - repeat split; by vm_compute.
Qed.

Lemma createCompany_answers_500_to_a_name_that_is_not_text_witness :
  exists r : HttpResponse,
    App.handle sampleEnv (App.PostCompany numericNameBody) sampleStore =
      Some (sampleStore, r) /\
    status r = 500 /\
    member (body r) "success" = JBool false /\
    member (body r) "statusCode" = JNum 500 /\
    (NODE_ENV sampleEnv <> "development" ->
     member (body r) "message" =
       JStr "Something went wrong on our end. Please try again later.").
Proof.
  apply (createCompany_answers_500_to_a_name_that_is_not_text
           sampleEnv numericNameBody sampleStore).
  vm_compute. reflexivity.
Defined.

(** ** The list endpoint *)




Lemma member_absent (l : list (string * JsVal)) (k : string) :
  k ∉ map fst l -> member (JObj l) k = JUndefined.
Proof.
  intros H. unfold member.
  destruct (find (fun kv => String.eqb kv.1 k) l) as [kv|] eqn:F; [|done].
  apply find_some in F as [Hin E]. apply String.eqb_eq in E.
  destruct H. rewrite <- E. apply list_elem_of_In. by apply in_map.
Qed.

Lemma project_keys (c : Company.t) (k : string) :
  k ∈ map fst (List.filter (fun kv => existsb (String.eqb kv.1) Store.projected)
                 (Company.lean c)) ->
  k ∈ listedPaths.
Proof.
  intros Hk.
  apply list_elem_of_In, in_map_iff in Hk as ([k' v] & <- & Hin).
  apply filter_In in Hin as [Hin Hp]. cbn [fst] in Hp |- *.
  assert (Hs : k' ∈ map fst (Company.paths c)).
  { apply present_keys. apply list_elem_of_In, in_map_iff. by exists (k', v). }
  apply existsb_exists in Hp as (p & Hp & ->%String.eqb_eq).
  apply list_elem_of_In in Hp. unfold Store.projected in Hp. clear Hin.
  repeat (apply elem_of_cons in Hp as [->|Hp];
          [first [by apply (bool_decide_unpack _)
                 |exfalso; revert Hs; by apply (bool_decide_unpack _)]|]).
  by apply elem_of_nil in Hp.
Qed.

(** X13. An item of the list endpoint holds no path outside the nine stored
    paths of the projection: neither the email, the phone, the employee
    count, the headquarters and the revenue of the record, nor its
    timestamps, nor [employeeRange], which the projection names but
    which, being a virtual, is not stored. *)
Theorem getAllCompanies_shows_only_the_listed_paths
    (query : JsObject) (st : Store.t) (items : list JsVal) (item : JsVal) (k : string) :
  Controller.getAllCompanies query st = Some (Controller.send 200 (JArr items)) ->
  item ∈ items ->
  k ∉ listedPaths ->
  member item k = JUndefined.
Proof.
  unfold Controller.getAllCompanies, Store.aggregatePage.
  destruct (Controller.numberOr 1 _) as [page|]; cbn [mbind option_bind]; [|done].
  destruct (Controller.numberOr 10 _) as [limit|]; cbn [mbind option_bind]; [|done].
  destruct (_ && _); cbn [mbind option_bind]; [|done].
  intros [= <-] Hin Hk.
  apply subseteq_take, subseteq_drop in Hin.
  apply list_elem_of_In, in_map_iff in Hin as (c & <- & _).
  unfold Store.project. apply member_absent.
  intros Hk'. by apply Hk, (project_keys c).
Qed.

Lemma getAllCompanies_shows_only_the_listed_paths_witness :
  member (Store.project acmeCorp) "email" = JUndefined.
Proof.
  apply (getAllCompanies_shows_only_the_listed_paths ∅ sampleStore
           (map Store.project sampleStore) (Store.project acmeCorp) "email").
  - vm_compute. reflexivity.
  - apply elem_of_cons. left. reflexivity.
  - apply (bool_decide_unpack _). vm_compute. reflexivity.
Defined.

(** ** Search *)

(** X14. The search reads [isActive] as true only when it is the text
    [true]: for any other text ([false], but also [1], [yes] or [TRUE])
    it asks for the records that are not active. *)
Theorem searchCompanies_isActive_is_true_only_as_the_text_true
    (s : string) (st : Store.t) :
  Controller.searchCompanies (activeQuery s) st =
    Some (Controller.found (List.filter (activeIs (String.eqb s "true")) st)).
Proof.
  unfold Controller.searchCompanies, Controller.buildFilters, activeQuery, get.
  rewrite lookup_singleton_eq, !lookup_singleton_ne by done.
  cbn [default Controller.given Controller.givenAs Controller.givenActive
       mbind option_bind].
  unfold Store.findMany. cbn [Store.f_name Store.f_location Store.compile
                              mbind option_bind].
  do 2 f_equal. apply filter_eq. intros c.
  unfold Store.matchesFilters, activeIs. cbn. by rewrite !andb_true_r.
Qed.

(** ** Suggestions *)

(** X15. A suggestion query with an empty text is not refused: the empty
    pattern matches every value, so the answer lists every name, every
    industry and every location of the store, each once. *)
Theorem searchSuggestion_empty_text_lists_every_value
    (query : JsObject) (st : Store.t) :
  get query "q" = JStr "" ->
  exists vals : list string,
    Controller.searchSuggestion query st = Some (suggestionBody vals) /\
    NoDup vals /\
    forall v : string, v ∈ vals <-> exists c : Company.t, c ∈ st /\ v ∈ fieldValues c.
Proof.
  intros Hq.
  destruct (searchSuggestion_regex query st "" REps Hq eq_refl) as (vals & E & Hnd & Hv).
  exists vals. split; [done|]. split; [done|].
  intros v. rewrite Hv. split.
  - intros (c & Hc & Hin & _). eauto.
  - intros (c & Hc & Hin). exists c. split; [done|]. split; [done|].
    apply test_spec. exists [], [], (chars v). split; [done|]. constructor.
Qed.

Lemma searchSuggestion_empty_text_lists_every_value_witness :
  exists vals : list string,
    Controller.searchSuggestion emptyQuery sampleStore = Some (suggestionBody vals) /\
    NoDup vals /\
    forall v : string,
      v ∈ vals <-> exists c : Company.t, c ∈ sampleStore /\ v ∈ fieldValues c.
Proof.
  apply (searchSuggestion_empty_text_lists_every_value emptyQuery sampleStore).
  reflexivity.
Defined.

(** ** The model's virtuals and methods *)

(** X16. The employee range of a record goes by strict upper bounds: a count
    below 10 (other than 0) is in [1-10], one from 10 to 49 in [11-50],
    one from 50 to 199 in [51-200], one from 200 to 999 in [201-1000]
    and one of 1000 or more in [1000+], so that 10, 50 and 200 fall in the
    range above the one whose label names them; a count of 0 reads as not
    specified.  The virtual and the method agree. *)
Theorem getEmployeeRange_goes_by_strict_upper_bounds (c : Company.t) (n : Z) :
  Company.employees c = Some n ->
  (Company.getEmployeeRange c = "Not specified" <-> n = 0) /\
  (Company.getEmployeeRange c = "1-10" <-> n <> 0 /\ n < 10) /\
  (Company.getEmployeeRange c = "11-50" <-> 10 <= n < 50) /\
  (Company.getEmployeeRange c = "51-200" <-> 50 <= n < 200) /\
  (Company.getEmployeeRange c = "201-1000" <-> 200 <= n < 1000) /\
  (Company.getEmployeeRange c = "1000+" <-> 1000 <= n) /\
  Company.employeeRange c = Company.getEmployeeRange c.
Proof.
  intros E. unfold Company.getEmployeeRange, Company.employeeRange,
    Company.employeeRangeOf, Company.noNumber. rewrite E.
  change (default 0 (Some n)) with n.
  destruct (Z.eqb_spec n 0) as [->|H0];
    [|destruct (Z.ltb_spec n 10);
      [|destruct (Z.ltb_spec n 50);
        [|destruct (Z.ltb_spec n 200);
          [|destruct (Z.ltb_spec n 1000)]]]];
    repeat split; intros; first [done|lia].
Qed.

Lemma getEmployeeRange_goes_by_strict_upper_bounds_witness :
  (Company.getEmployeeRange acmeCorp = "Not specified" <-> 120 = 0) /\
  (Company.getEmployeeRange acmeCorp = "1-10" <-> 120 <> 0 /\ 120 < 10) /\
  (Company.getEmployeeRange acmeCorp = "11-50" <-> 10 <= 120 < 50) /\
  (Company.getEmployeeRange acmeCorp = "51-200" <-> 50 <= 120 < 200) /\
  (Company.getEmployeeRange acmeCorp = "201-1000" <-> 200 <= 120 < 1000) /\
  (Company.getEmployeeRange acmeCorp = "1000+" <-> 1000 <= 120) /\
  Company.employeeRange acmeCorp = Company.getEmployeeRange acmeCorp.
Proof.
  apply (getEmployeeRange_goes_by_strict_upper_bounds acmeCorp 120).
  reflexivity.
Defined.

Lemma member_deleteKey (key k : string) (l : list (string * JsVal)) :
  member (JObj (Company.deleteKey key l)) k =
    if String.eqb k key then JUndefined else member (JObj l) k.
Proof.
  unfold member, Company.deleteKey.
  induction l as [|[k' v] l IH]; cbn [find].
  - rewrite filter_nil. cbn. by destruct (String.eqb k key).
  - rewrite filter_cons. cbn [fst snd].
    destruct (decide (k' <> key)) as [Hne|Heq].
    + cbn [find fst]. destruct (String.eqb_spec k' k) as [->|Hk]; [|exact IH].
      apply String.eqb_neq in Hne. by rewrite Hne.
    + apply dec_stable in Heq. subst k'.
      destruct (String.eqb_spec key k) as [->|Hk].
      * rewrite String.eqb_refl in IH |- *. exact IH.
      * rewrite IH. done.
Qed.

(** X17. The public profile of a record is its object without [email] and
    [revenue]: the two read as undefined, and every other member,
    virtuals included, reads as in the object. *)
Theorem getPublicProfile_hides_email_and_revenue (env : Env) (c : Company.t) :
  member (JObj (Company.getPublicProfile env c)) "email" = JUndefined /\
  member (JObj (Company.getPublicProfile env c)) "revenue" = JUndefined /\
  forall k : string,
    k <> "email" -> k <> "revenue" ->
    member (JObj (Company.getPublicProfile env c)) k =
    member (JObj (Company.toObject env c)) k.
Proof.
  unfold Company.getPublicProfile. split; [|split].
  - by rewrite !member_deleteKey.
  - by rewrite !member_deleteKey.
  - intros k H1%String.eqb_neq H2%String.eqb_neq.
    by rewrite !member_deleteKey, H1, H2.
Qed.

(** ** The envelope classes as JSON *)

(** X18. What the two envelope classes write as JSON reads back member by
    member: a response gives its [success], [statusCode], [message],
    [data], [timestamp] and [path], an error the same with [errors] in
    place of [data] and a [success] that is false whatever its status
    code; a member that was not given is left out, and the stack and the
    operational mark of an error are never written.  Both are envelopes. *)
Theorem toJSON_reads_back (r : ApiResponse.t) (e : ApiError.t) :
  (member (ApiResponse.toJSON r) "success" = JBool (ApiResponse.success r) /\
   member (ApiResponse.toJSON r) "statusCode" = JNum (ApiResponse.statusCode r) /\
   member (ApiResponse.toJSON r) "message" = JStr (ApiResponse.message r) /\
   member (ApiResponse.toJSON r) "data" = ApiResponse.data r /\
   member (ApiResponse.toJSON r) "timestamp" = JStr (ApiResponse.timestamp r) /\
   member (ApiResponse.toJSON r) "path" = ApiResponse.optStr (ApiResponse.path r) /\
   isEnvelope (ApiResponse.toJSON r) = true) /\
  (member (ApiError.toJSON e) "success" = JBool false /\
   member (ApiError.toJSON e) "statusCode" = JNum (ApiError.statusCode e) /\
   member (ApiError.toJSON e) "message" = JStr (ApiError.message e) /\
   member (ApiError.toJSON e) "errors" = ApiError.optStrings (ApiError.errors e) /\
   member (ApiError.toJSON e) "timestamp" = JStr (ApiError.timestamp e) /\
   member (ApiError.toJSON e) "path" = ApiResponse.optStr (ApiError.path e) /\
   member (ApiError.toJSON e) "stack" = JUndefined /\
   member (ApiError.toJSON e) "isOperational" = JUndefined /\
   isEnvelope (ApiError.toJSON e) = true).
Proof.
  split.
  - destruct r as [s c m d t [p|]]; destruct d; repeat split; try by vm_compute.
    all: cbn; by rewrite forallb_forall.
  - destruct e as [c m [errs|] t [p|] o st]; repeat split; try by vm_compute.
    all: unfold isEnvelope; cbn; induction errs; by cbn.
Qed.

Lemma member_app_fresh (l r : list (string * JsVal)) (k : string) :
  k ∉ map fst l -> member (JObj (l ++ r)) k = member (JObj r) k.
Proof.
  intros H. unfold member. induction l as [|[k' v] l IH]; [done|].
  cbn [app find fst]. cbn [map fst] in H. apply not_elem_of_cons in H as [Hne H].
  destruct (String.eqb_spec k' k) as [->|_]; [done|]. by apply IH.
Qed.

(** X19. For a stored record the virtual [companyAge] and the method
    [getCompanyAge] give the same age when the record has a founding
    year, and differ when it has none: the virtual is null and the method
    is 0.  So the object a create or an update answers with holds
    [companyAge: null] for such a record where get-by-id holds
    [companyAge: 0]. *)
Theorem companyAge_is_null_in_the_object_and_0_in_get_by_id
    (env : Env) (st : Store.t) (c : Company.t) :
  App.Reachable st ->
  c ∈ st ->
  member (JObj (Company.toObject env c)) "companyAge" =
    match Company.foundedYear c with
    | Some y => JNum (fullYear env - y)
    | None => JNull
    end /\
  member (answer (Controller.getCompanyById env (Company._id c) st)) "companyAge" =
    match Company.foundedYear c with
    | Some y => JNum (fullYear env - y)
    | None => JNum 0
    end.
Proof.
  intros [Hnd Hall]%reachable_wellformed Hin.
  rewrite Forall_forall in Hall. destruct (Hall c Hin) as [Hid Hy].
  assert (Hage : Company.noNumber (Company.foundedYear c) =
                 match Company.foundedYear c with Some _ => false | None => true end).
  { unfold Company.noNumber. destruct (Company.foundedYear c) as [y|]; [|done].
    specialize (Hy y eq_refl). apply Z.eqb_neq. lia. }
  split.
  - unfold Company.toObject. fold (Company.lean c).
    rewrite member_app_fresh by apply companyAge_not_stored.
    cbn. unfold Company.companyAge. rewrite Hage.
    by destruct (Company.foundedYear c).
  - unfold Controller.getCompanyById, Store.findById.
    rewrite Hid, (find_byId_unique st c Hnd Hin).
    cbn [answer Controller.send body].
    unfold Company.toObject. fold (Company.lean c).
    rewrite assign_app_fresh by apply companyAge_not_stored.
    rewrite member_app_fresh by apply companyAge_not_stored.
    cbn. unfold Company.getCompanyAge. rewrite Hage.
    by destruct (Company.foundedYear c).
Qed.

Lemma companyAge_is_null_in_the_object_and_0_in_get_by_id_witness :
  member (JObj (Company.toObject laterEnv (hd acmeCorp (storeOf techCorpCreated))))
    "companyAge" = JNull /\
  member (answer (Controller.getCompanyById laterEnv
                    (Company._id (hd acmeCorp (storeOf techCorpCreated)))
                    (storeOf techCorpCreated))) "companyAge" = JNum 0.
Proof.
  apply (companyAge_is_null_in_the_object_and_0_in_get_by_id laterEnv
           (storeOf techCorpCreated) (hd acmeCorp (storeOf techCorpCreated))).
  - apply (App.reach_step sampleEnv (App.PostCompany techCorpBody) []
             (storeOf techCorpCreated)
             (App.respond sampleEnv (App.PostCompany techCorpBody)
                (Sent (responseOf techCorpCreated)))).
    + apply App.reach_empty.
    + reflexivity.
    + vm_compute. reflexivity.
  - apply elem_of_cons. left. reflexivity.
Defined.

(** ** The error middleware on any error *)

Lemma readable_duplicate (env : Env) (err : ErrorMiddleware.ExtendedError)
    (error : ErrorMiddleware.Handled) :
  readable err ->
  exists error',
    ErrorMiddleware.replaceIfBy (ErrorMiddleware.isNum (ErrorMiddleware.code err) 11000)
      (ErrorMiddleware.handleDuplicateFieldsDB env err) error = inr error'.
Proof.
  intros [Hk _]. unfold ErrorMiddleware.replaceIfBy.
  destruct (ErrorMiddleware.isNum _ _); [|eauto].
  destruct (Hk eq_refl) as [kv E].
  unfold ErrorMiddleware.handleDuplicateFieldsDB. rewrite E. eauto.
Qed.

Lemma readable_validation (env : Env) (err : ErrorMiddleware.ExtendedError)
    (error : ErrorMiddleware.Handled) :
  readable err ->
  exists error',
    ErrorMiddleware.replaceIfBy (String.eqb (ErrorMiddleware.name err) "ValidationError")
      (ErrorMiddleware.handleValidationErrorDB env err) error = inr error'.
Proof.
  intros [_ Hv]. unfold ErrorMiddleware.replaceIfBy.
  destruct (String.eqb_spec (ErrorMiddleware.name err) "ValidationError") as [E|_]; [|eauto].
  destruct (Hv E) as [errs E'].
  unfold ErrorMiddleware.handleValidationErrorDB. rewrite E'. eauto.
Qed.

(** X20. The tests of the global handler are separate [if]s, and the one on
    [SyntaxError] comes last: an error of that name is answered 400,
    with the message on malformed JSON when its [type] says so and the
    message on a syntax error otherwise, whatever the earlier tests made
    of it and in either mode. *)
Theorem globalErrorHandler_syntax_error_is_decided_last
    (env : Env) (err : ErrorMiddleware.ExtendedError) (reqPath reqMethod : string) :
  ErrorMiddleware.name err = "SyntaxError" ->
  readable err ->
  exists r : HttpResponse,
    ErrorMiddleware.globalErrorHandler env err reqPath reqMethod = inr r /\
    status r = 400 /\
    member (body r) "success" = JBool false /\
    member (body r) "statusCode" = JNum 400 /\
    member (body r) "message" =
      JStr (if ErrorMiddleware.isStr (ErrorMiddleware.type err) "entity.parse.failed"
            then "Invalid JSON format in request body."
            else "Syntax error in request.").
Proof.
  intros Hn Hr. unfold ErrorMiddleware.globalErrorHandler.
  destruct (readable_duplicate env err
              (ErrorMiddleware.replaceIf (String.eqb (ErrorMiddleware.name err) "CastError")
                 (ErrorMiddleware.handleCastErrorDB env err) (ErrorMiddleware.Copy err)) Hr)
    as [e1 ->].
  destruct (readable_validation env err e1 Hr) as [e2 ->].
  rewrite Hn. cbn [String.eqb Ascii.eqb Bool.eqb ErrorMiddleware.replaceIf orb andb].
  eexists. split; [reflexivity|].
  unfold ErrorMiddleware.handleSyntaxError.
  destruct (ErrorMiddleware.isStr _ _), (String.eqb (NODE_ENV env) "development");
    by vm_compute.
Qed.

Lemma globalErrorHandler_syntax_error_is_decided_last_witness :
  exists r : HttpResponse,
    ErrorMiddleware.globalErrorHandler sampleEnv malformedJson "/" "POST" = inr r /\
    status r = 400 /\
    member (body r) "success" = JBool false /\
    member (body r) "statusCode" = JNum 400 /\
    member (body r) "message" = JStr "Invalid JSON format in request body.".
Proof.
  apply (globalErrorHandler_syntax_error_is_decided_last sampleEnv malformedJson "/" "POST").
  - reflexivity.
  - split; intros H; vm_compute in H; discriminate H.
Defined.

(** X21. An error whose message contains the words [rate limit], or whose
    name is [RateLimitError], is answered 429 with the rate-limit
    message, whatever its own status code and message were; only a
    [SyntaxError] escapes this. *)
Theorem globalErrorHandler_rate_limit_overrides
    (env : Env) (err : ErrorMiddleware.ExtendedError) (reqPath reqMethod : string) :
  ErrorMiddleware.name err = "RateLimitError" \/
    includes (ErrorMiddleware.message err) "rate limit" = true ->
  ErrorMiddleware.name err <> "SyntaxError" ->
  readable err ->
  exists r : HttpResponse,
    ErrorMiddleware.globalErrorHandler env err reqPath reqMethod = inr r /\
    status r = 429 /\
    member (body r) "statusCode" = JNum 429 /\
    member (body r) "message" =
      JStr "Too many requests from this IP. Please try again later.".
Proof.
  intros Hrl Hn Hr. unfold ErrorMiddleware.globalErrorHandler.
  destruct (readable_duplicate env err
              (ErrorMiddleware.replaceIf (String.eqb (ErrorMiddleware.name err) "CastError")
                 (ErrorMiddleware.handleCastErrorDB env err) (ErrorMiddleware.Copy err)) Hr)
    as [e1 ->].
  destruct (readable_validation env err e1 Hr) as [e2 ->].
  assert (String.eqb (ErrorMiddleware.name err) "RateLimitError" ||
          includes (ErrorMiddleware.message err) "rate limit" = true) as ->.
  { destruct Hrl as [->| ->]; [reflexivity|apply orb_true_r]. }
  apply String.eqb_neq in Hn. rewrite Hn.
  cbn [ErrorMiddleware.replaceIf].
  eexists. split; [reflexivity|].
  destruct (String.eqb (NODE_ENV env) "development"); by vm_compute.
Qed.

Lemma globalErrorHandler_rate_limit_overrides_witness :
  exists r : HttpResponse,
    ErrorMiddleware.globalErrorHandler sampleEnv noRateLimitPlan "/plans" "GET" = inr r /\
    status r = 429 /\
    member (body r) "statusCode" = JNum 429 /\
    member (body r) "message" =
      JStr "Too many requests from this IP. Please try again later.".
Proof.
  apply (globalErrorHandler_rate_limit_overrides sampleEnv noRateLimitPlan "/plans" "GET").
  - right. reflexivity.
  - vm_compute. discriminate.
  - split; intros H; vm_compute in H; discriminate H.
Defined.

Lemma unrecognised_name (err : ErrorMiddleware.ExtendedError) (n : string) :
  unrecognised err -> n ∈ handledNames ->
  String.eqb (ErrorMiddleware.name err) n = false.
Proof.
  intros [Hn _] Hin. apply String.eqb_neq. intros E. apply Hn. by rewrite E.
Qed.

(** X22. Outside development mode, an error that passes none of the tests of
    the global handler and is not marked operational is answered 500 with
    a fixed text: its message, its status code and its stack never reach
    the client.  When it is marked operational its message is sent under
    its status code, 500 standing in for a missing one. *)
Theorem globalErrorHandler_hides_unknown_errors_in_production
    (env : Env) (err : ErrorMiddleware.ExtendedError) (reqPath reqMethod : string) :
  NODE_ENV env <> "development" ->
  unrecognised err ->
  ErrorMiddleware.globalErrorHandler env err reqPath reqMethod =
    inr (if ErrorMiddleware.isOperational err
         then {| status := ErrorMiddleware.statusOr500 (ErrorMiddleware.Copy err);
                 body := JObj
                   [("success", JBool false);
                    ("statusCode",
                     JNum (ErrorMiddleware.statusOr500 (ErrorMiddleware.Copy err)));
                    ("message", JStr (ErrorMiddleware.message err));
                    ("timestamp", JStr (nowISO env));
                    ("path", JStr reqPath)] |}
         else {| status := 500;
                 body := JObj
                   [("success", JBool false);
                    ("statusCode", JNum 500);
                    ("message",
                     JStr "Something went wrong on our end. Please try again later.");
                    ("timestamp", JStr (nowISO env));
                    ("path", JStr reqPath)] |}).
Proof.
  intros Hdev Hu. unfold ErrorMiddleware.globalErrorHandler.
  rewrite !(unrecognised_name err _ Hu) by (unfold handledNames; set_solver).
  destruct Hu as (_ & -> & ->).
  apply String.eqb_neq in Hdev. rewrite Hdev.
  cbn [ErrorMiddleware.replaceIf ErrorMiddleware.replaceIfBy andb orb].
  reflexivity.
Qed.

Lemma globalErrorHandler_hides_unknown_errors_in_production_witness :
  ErrorMiddleware.globalErrorHandler sampleEnv rangeError "/" "GET" =
    inr {| status := 500;
           body := JObj
             [("success", JBool false);
              ("statusCode", JNum 500);
              ("message",
               JStr "Something went wrong on our end. Please try again later.");
              ("timestamp", JStr (nowISO sampleEnv));
              ("path", JStr "/")] |}.
Proof.
  apply (globalErrorHandler_hides_unknown_errors_in_production
           sampleEnv rangeError "/" "GET").
  - vm_compute. discriminate.
  - split; [|split; reflexivity].
    apply (bool_decide_unpack _). by vm_compute.
Defined.

(** X23. On the errors the company handlers raise, the handler on any error
    and the handler on those errors give the same response: none of the
    tests for token, upload, network, timeout and syntax errors passes,
    and no [handle...] function throws. *)
Theorem globalErrorHandler_on_handler_errors
    (env : Env) (e : Thrown) (reqPath reqMethod : string) :
  ErrorMiddleware.globalErrorHandler env (ErrorMiddleware.ofThrown e) reqPath reqMethod =
    inr (ErrorHandler.globalErrorHandler env e reqPath reqMethod).
Proof.
  unfold ErrorMiddleware.globalErrorHandler, ErrorHandler.globalErrorHandler.
  destruct e as [a|m|errs|k v|p v]; cbn -[includes];
    destruct (includes _ "rate limit"), (String.eqb (NODE_ENV env) "development");
    reflexivity.
Qed.

(** X24. A request no route matches is answered 404 with the message
    [Cannot METHOD url], in either mode, unless that text contains the
    words [rate limit]. *)
Theorem notFoundHandler_answers_404
    (env : Env) (reqMethod originalUrl reqPath : string) :
  includes ("Cannot " +:+ reqMethod +:+ " " +:+ originalUrl) "rate limit" = false ->
  exists r : HttpResponse,
    ErrorMiddleware.globalErrorHandler env
      (ErrorMiddleware.ofThrown
         (ThrowApiError (ErrorMiddleware.notFoundHandler env reqMethod originalUrl)))
      reqPath reqMethod = inr r /\
    status r = 404 /\
    member (body r) "success" = JBool false /\
    member (body r) "statusCode" = JNum 404 /\
    member (body r) "message" = JStr ("Cannot " +:+ reqMethod +:+ " " +:+ originalUrl).
Proof.
  intros H. unfold ErrorMiddleware.globalErrorHandler.
  cbn -[includes String.append]. rewrite H.
  eexists. split; [reflexivity|].
  destruct (String.eqb (NODE_ENV env) "development"); by vm_compute.
Qed.

Lemma notFoundHandler_answers_404_witness :
  exists r : HttpResponse,
    ErrorMiddleware.globalErrorHandler sampleEnv
      (ErrorMiddleware.ofThrown
         (ThrowApiError (ErrorMiddleware.notFoundHandler sampleEnv "GET" "/api/v1/users")))
      "/api/v1/users" "GET" = inr r /\
    status r = 404 /\
    member (body r) "success" = JBool false /\
    member (body r) "statusCode" = JNum 404 /\
    member (body r) "message" = JStr "Cannot GET /api/v1/users".
Proof.
  apply (notFoundHandler_answers_404 sampleEnv "GET" "/api/v1/users" "/api/v1/users").
  reflexivity.
Defined.

(** ** Errors of a create on their way to the client *)

(** X25. A create whose body passes the checks of the handler and fails
    those of the schema is answered 422 with the message
    [Invalid input data]; in development mode the answer carries, under
    [error], the message of each failed validator.  This holds as long as
    the text of the validation error contains neither [CORS] nor
    [rate limit]. *)
Theorem createCompany_answers_422_to_a_schema_violation
    (env : Env) (reqBody : JsObject) (st st' : Store.t) (errs : list (string * string)) :
  Controller.createCompany env reqBody st = Some (st', Threw (ThrowValidationError errs)) ->
  includes (Thrown.message (ThrowValidationError errs)) "CORS" = false ->
  includes (Thrown.message (ThrowValidationError errs)) "rate limit" = false ->
  exists r : HttpResponse,
    App.handle env (App.PostCompany reqBody) st = Some (st, r) /\
    status r = 422 /\
    member (body r) "success" = JBool false /\
    member (body r) "message" = JStr "Invalid input data" /\
    (NODE_ENV env = "development" ->
     member (member (body r) "error") "errors" = ApiError.strings (map snd errs)).
Proof.
  intros H Hc Hr. pose proof (createCompany_threw _ _ _ _ _ H) as ->.
  unfold App.handle. cbn [App.dispatch]. rewrite H. cbn [mbind option_bind].
  eexists. split; [reflexivity|].
  unfold App.respond, ErrorHandler.corsErrorHandler. rewrite Hc.
  unfold ErrorHandler.globalErrorHandler. rewrite Hr.
  destruct (String.eqb (NODE_ENV env) "development") eqn:Hd.
  - repeat split; by vm_compute.
  - apply String.eqb_neq in Hd. repeat split; by vm_compute.
Qed.

Lemma createCompany_answers_422_to_a_schema_violation_witness :
  exists r : HttpResponse,
    App.handle devEnv (App.PostCompany badEmailBody) sampleStore = Some (sampleStore, r) /\
    status r = 422 /\
    member (body r) "success" = JBool false /\
    member (body r) "message" = JStr "Invalid input data" /\
    (NODE_ENV devEnv = "development" ->
     member (member (body r) "error") "errors" =
       ApiError.strings (map snd [("email", "Please enter a valid email")])).
Proof.
  apply (createCompany_answers_422_to_a_schema_violation devEnv badEmailBody
           sampleStore sampleStore [("email", "Please enter a valid email")]).
  - vm_compute. reflexivity.
  - vm_compute. reflexivity.
  - vm_compute. reflexivity.
Defined.

(** X26. When the query layer applies the setters of a path to the value of
    a filter, the duplicate check of the handler misses no name and no
    email: a create it lets through never fails on the unique index of
    [name] or of [email], and a duplicate-key error can only be about the
    identifier. *)
Theorem createCompany_check_covers_the_unique_indexes
    (env : Env) (reqBody : JsObject) (st st' : Store.t) (key value : string) :
  settersOnQuery env = true ->
  Controller.createCompany env reqBody st =
    Some (st', Threw (ThrowDuplicateKey key value)) ->
  key = "_id" /\ value = newObjectId env.
Proof.
  intros Hs H. apply createCompany_cases in H.
  remember (Threw (ThrowDuplicateKey key value)) as o eqn:Eo.
  destruct H as [m F|err errs F|F D|F D I|e F D I C _|doc F D I C];
    try discriminate Eo; try thrown_differ Eo.
  injection Eo as ->.
  destruct (fieldErrors_nil reqBody F) as (name & email & En & Ee).
  unfold Store.create in C.
  destruct (Company.cast _) as [d|] eqn:Hc; cbn [mbind option_bind] in C; [|done].
  destruct (Company.validate env d) as [|? ?]; [|done].
  destruct (Store.duplicateKey _ st) as [[k v]|] eqn:K; [|done].
  injection C as -> ->.
  pose proof (cast_name_email _ _ Hc) as [Hn He].
  rewrite get_createObject, En in Hn by (by apply (bool_decide_unpack _)).
  rewrite get_createObject, Ee in He by (by apply (bool_decide_unpack _)).
  injection Hn as Hn. injection He as He.
  assert (Hnone : Store.findOneByNameOrEmail env name email st = None).
  { destruct (Store.findOneByNameOrEmail env name email st) eqn:Fo; [|done].
    destruct D. apply (findOne_duplicated env reqBody st name email En Ee). eauto. }
  unfold Store.duplicateKey in K.
  destruct (existsb (Store.byId _) st); [by injection K as <- <-|].
  exfalso.
  assert (Hname : existsb (fun c => String.eqb (Company.name c)
                     (Company.name (Company.document env d))) st = false).
  { apply existsb_eqb_false. intros (c & E & Hin)%list_elem_of_fmap.
    destruct (findOne_None env name email st c Hnone Hin) as [Hne _].
    apply Hne. unfold Store.queryName. rewrite Hs, <- E. cbn. by rewrite <- Hn. }
  assert (Hemail : existsb (fun c => String.eqb (Company.email c)
                      (Company.email (Company.document env d))) st = false).
  { apply existsb_eqb_false. intros (c & E & Hin)%list_elem_of_fmap.
    destruct (findOne_None env name email st c Hnone Hin) as [_ Hne].
    apply Hne. unfold Store.queryEmail. rewrite Hs, <- E. cbn. by rewrite <- He. }
  rewrite Hname, Hemail in K. discriminate K.
Qed.

Lemma createCompany_check_covers_the_unique_indexes_witness :
  "_id" = "_id" /\ newObjectId sampleEnv = newObjectId sameIdEnv.
Proof.
  apply (createCompany_check_covers_the_unique_indexes sameIdEnv initechBody
           (storeOf techCorpCreated) (storeOf techCorpCreated)
           "_id" (newObjectId sampleEnv)).
  - reflexivity.
  - vm_compute. reflexivity.
Defined.




